(** * Portfolio analytics: a shallow embedding of [portfolio.py] and
    [sensitivity_analysis.py]

    The Python code computes on IEEE-754 doubles through numpy and pandas.
    The embedding is written once, over an interface [Arith] of the float
    operations the code uses, and is run on [Binary64]: Rocq's primitive
    binary64 floats, the numbers Python computes with. General statements
    are proved from laws of the arithmetic ([ArithLaws], [SpecialLaws],
    [RoundingLaws]); every law is proved for [Binary64] from the IEEE-754
    specification of the primitive floats, rounding and overflow included.

    Row labels (the date index) are left out: a series is the list of its
    values, a table is its column labels and its rows, and position [t] of a
    list stands for the [t]-th date. *)

From Stdlib Require Import String.
From Stdlib Require Import List ZArith Floats Bool Lia Arith.
Import ListNotations.

Set Implicit Arguments.

(** ** The float operations of the code *)

Class Arith : Type := {
  num : Type;
  add : num -> num -> num;
  sub : num -> num -> num;
  mul : num -> num -> num;
  div : num -> num -> num;          (* numpy division: x/0 is inf or nan *)
  np_sqrt : num -> num;
  ltb : num -> num -> bool;         (* false when either side is nan *)
  leb : num -> num -> bool;
  np_isnan : num -> bool;
  np_isfinite : num -> bool;        (* np.isfinite; only statements use it *)
  np_nan : num;
  of_int : Z -> num;                (* int -> float *)
  floor : num -> Z                  (* the floor of a finite value *)
}.

Declare Scope num_scope.
Delimit Scope num_scope with num.
Infix "+!" := add (at level 50, left associativity) : num_scope.
Infix "-!" := sub (at level 50, left associativity) : num_scope.
Infix "*!" := mul (at level 40, left associativity) : num_scope.
Infix "/!" := div (at level 40, left associativity) : num_scope.
Infix "<!" := ltb (at level 65, no associativity) : num_scope.
Infix "<=!" := leb (at level 65, no associativity) : num_scope.
Open Scope num_scope.

(** A decimal literal [n/d] of the source ([0.6] is [lit 6 10]): the
    correctly rounded quotient of two exactly representable integers is the
    double the literal denotes. *)
Definition lit `{Arith} (n d : Z) : num := of_int n /! of_int d.

(** A price that is present: a finite, positive number. *)
Definition is_price `{Arith} (x : num) : bool :=
  np_isfinite x && (of_int 0 <! x).

(** Python's [x == y] on floats: false as soon as one side is nan, true of
    [0.0] and [-0.0]. *)
Definition np_equal `{Arith} (x y : num) : bool := (x <=! y) && (y <=! x).

(** What the proofs use of the arithmetic, true of IEEE arithmetic: nan is
    nan and its square root is nan, [<] is asymmetric, a price is a number,
    the change from a missing price is nan and the change between two
    prices is a number. *)
Class ArithLaws (A : Arith) : Prop := {
  isnan_nan : np_isnan np_nan = true;
  sqrt_nan : np_sqrt np_nan = np_nan;
  ltb_asym : forall x y, x <! y = true -> y <! x = false;
  price_is_number : forall p, is_price p = true -> np_isnan p = false;
  change_from_nan : forall p, np_isnan (p /! np_nan -! of_int 1) = true;
  change_of_prices : forall p q,
    is_price p = true -> is_price q = true ->
    np_isnan (p /! q -! of_int 1) = false
}.

(** The option monad carries Python exceptions: [None] is a raised error. *)
Definition bind {A B} (m : option A) (f : A -> option B) : option B :=
  match m with Some a => f a | None => None end.

Notation "x <- m ;; k" := (bind m (fun x => k))
  (at level 61, m at next level, right associativity).
Notation "' pat <- m ;; k" := (bind m (fun x => match x with pat => k end))
  (at level 61, pat pattern, m at next level, right associativity).

Fixpoint map2 {A B C} (f : A -> B -> C) (xs : list A) (ys : list B) : list C :=
  match xs, ys with
  | x :: xs', y :: ys' => f x y :: map2 f xs' ys'
  | _, _ => []
  end.

(** ** numpy and pandas, as far as the code calls them

    These model library functions by their documented behaviour: statistics
    skip nan entries ([skipna=True]), the standard deviation and the
    variance are the sample ones ([ddof=1]). Sums run left to right from
    [0.0]; another order of summation can change the last bits of a binary64
    sum, and the statements that depend on the order spell it out. *)

Module pd.
Section Pandas.
Context `{A : Arith}.

Definition Series := list num.

Record DataFrame := {
  columns : list string;           (* column labels, left to right *)
  rows : list (list num)           (* one row of cells per date *)
}.

Definition width (df : DataFrame) : nat := length (columns df).
Definition len (df : DataFrame) : nat := length (rows df).

(** [np.sum]. *)
Definition np_sum (xs : list num) : num := fold_left add xs (of_int 0).

(** [Series.dropna]. *)
Definition notna (xs : Series) : Series :=
  filter (fun x => negb (np_isnan x)) xs.

(** [Series.mean]: the mean of the entries that are not nan; nan when
    there is none. *)
Definition mean (xs : Series) : num :=
  match notna xs with
  | [] => np_nan
  | vs => np_sum vs /! of_int (Z.of_nat (length vs))
  end.

(** [Series.var]: sum of squared deviations over [n - 1]; nan when fewer
    than two entries are left. *)
Definition var (xs : Series) : num :=
  let vs := notna xs in
  if (length vs <=? 1)%nat then np_nan
  else
    let avg := np_sum vs /! of_int (Z.of_nat (length vs)) in
    np_sum (map (fun x => (avg -! x) *! (avg -! x)) vs)
      /! of_int (Z.of_nat (length vs) - 1).

(** [Series.std]. *)
Definition std (xs : Series) : num := np_sqrt (var xs).

(** [Series.cov]: pairs with a nan on either side are left out; nan when
    no pair is left; one pair divides by zero. *)
Definition cov (xs ys : Series) : num :=
  let ps := filter (fun p => negb (np_isnan (fst p)) && negb (np_isnan (snd p)))
                   (combine xs ys) in
  match ps with
  | [] => np_nan
  | _ =>
    let n := of_int (Z.of_nat (length ps)) in
    let ax := np_sum (map fst ps) /! n in
    let ay := np_sum (map snd ps) /! n in
    np_sum (map (fun p => (fst p -! ax) *! (snd p -! ay)) ps)
      /! of_int (Z.of_nat (length ps) - 1)
  end.

(** Insertion sort by [<=], for the order statistics of [quantile]. *)
Fixpoint insert (x : num) (xs : list num) : list num :=
  match xs with
  | [] => [x]
  | y :: ys => if x <=! y then x :: y :: ys else y :: insert x ys
  end.

Definition sort (xs : list num) : list num := fold_right insert [] xs.

(** [Series.quantile(q)], linear interpolation: position [q * (n - 1)] among
    the sorted non-nan values. A [q] outside [0, 1] raises [ValueError]. *)
Definition quantile (xs : Series) (q : num) : option num :=
  if (of_int 0 <=! q) && (q <=! of_int 1) then
    match sort (notna xs) with
    | [] => Some np_nan
    | v :: vs =>
      let n := length (v :: vs) in
      let pos := q *! of_int (Z.of_nat n - 1) in
      let lo := Z.to_nat (floor pos) in
      let hi := Nat.min (S lo) (n - 1) in
      let a := nth lo (v :: vs) v in
      let b := nth hi (v :: vs) v in
      Some (a +! (b -! a) *! (pos -! of_int (Z.of_nat lo)))
    end
  else None.

(** [Series.cumprod]: nan entries count as [1.0] in the running product,
    and the result is nan at their positions. *)
Fixpoint cumprod_from (acc : num) (xs : Series) : Series :=
  match xs with
  | [] => []
  | x :: xs' =>
    let acc' := acc *! (if np_isnan x then of_int 1 else x) in
    (if np_isnan x then np_nan else acc') :: cumprod_from acc' xs'
  end.

Definition cumprod (xs : Series) : Series :=
  match xs with
  | [] => []
  | x :: xs' =>
    let acc := if np_isnan x then of_int 1 else x in
    (if np_isnan x then np_nan else acc) :: cumprod_from acc xs'
  end.

(** [Series.diff]: nan first, then each value minus the one before. *)
Definition diff (xs : Series) : Series :=
  match xs with
  | [] => []
  | _ :: xs' => np_nan :: map2 sub xs' xs
  end.

(** [Series.fillna(v)]. *)
Definition fillna (v : num) (xs : Series) : Series :=
  map (fun x => if np_isnan x then v else x) xs.

(** [Series.iloc[-1]]: [IndexError] on an empty series. *)
Definition iloc_last (xs : Series) : option num :=
  match xs with
  | [] => None
  | x :: xs' => Some (last xs' x)
  end.

(** Column [i] of a table, top to bottom. *)
Definition column (i : nat) (df : DataFrame) : Series :=
  map (fun r => nth i r np_nan) (rows df).

(** [df[label]]: the first column carrying the label; [KeyError] when no
    column does. *)
Fixpoint index_of (label : string) (labels : list string) : option nat :=
  match labels with
  | [] => None
  | l :: ls => if String.eqb l label then Some O
               else i <- index_of label ls ;; Some (S i)
  end.

Definition get_column (label : string) (df : DataFrame) : option Series :=
  i <- index_of label (columns df) ;; Some (column i df).

(** [DataFrame.std(axis=0)]: one value per column, in column order. *)
Definition df_std (df : DataFrame) : Series :=
  map (fun i => std (column i df)) (seq 0 (width df)).

(** [DataFrame.mean(axis=1)]: one value per row. *)
Definition df_mean_rows (df : DataFrame) : Series := map mean (rows df).

(** Forward fill down each column: a nan cell takes the last value above
    it, and stays nan when there is none. *)
Fixpoint ffill_from (above : list num) (rs : list (list num)) : list (list num) :=
  match rs with
  | [] => []
  | r :: rs' =>
    let r' := map2 (fun cur prev => if np_isnan cur then prev else cur) r above in
    r' :: ffill_from r' rs'
  end.

Definition ffill (w : nat) (rs : list (list num)) : list (list num) :=
  ffill_from (repeat np_nan w) rs.

(** [DataFrame.shift(1)]: a row of nan on top, the last row gone. *)
Definition shift (w : nat) (rs : list (list num)) : list (list num) :=
  match rs with
  | [] => []
  | _ => repeat np_nan w :: removelast rs
  end.

(** [DataFrame.pct_change()]: [data / data.shift(1) - 1]. Up to pandas 2 the
    data is forward filled first ([pad = true]); pandas 3 does not fill. *)
Definition pct_change (pad : bool) (df : DataFrame) : DataFrame :=
  let data := if pad then ffill (width df) (rows df) else rows df in
  {| columns := columns df;
     rows := map2 (map2 (fun p q => p /! q -! of_int 1)) data (shift (width df) data) |}.

(** [DataFrame.dropna()]: the rows without a nan cell. *)
Definition dropna (df : DataFrame) : DataFrame :=
  {| columns := columns df;
     rows := filter (fun r => negb (existsb np_isnan r)) (rows df) |}.

(** [DataFrame @ ndarray]: the dot product of each row with the vector;
    [ValueError] when the table's width is not the vector's length. *)
Definition dot (r w : list num) : num := np_sum (map2 mul r w).

Definition matmul (df : DataFrame) (w : list num) : option Series :=
  if (width df =? length w)%nat then Some (map (fun r => dot r w) (rows df))
  else None.

(** [Series * ndarray], position by position under numpy's broadcasting:
    equal lengths, or a vector of one element spread over the series. *)
Definition mul_ndarray (s : Series) (w : list num) : option Series :=
  if (length s =? length w)%nat then Some (map2 mul s w)
  else match w with
       | [w0] => Some (map (fun x => x *! w0) s)
       | _ => None
       end.

(** [np.arange(start, stop, step)]: [ceil((stop - start) / step)] values;
    the first is [start], the second [start + step], and from there on
    [start + i * delta] with [delta] the difference of the first two. *)
Definition np_arange (start stop step : num) : list num :=
  let n := Z.to_nat (- floor (of_int 0 -! (stop -! start) /! step)) in
  let delta := (start +! step) -! start in
  map (fun i => match i with
                | O => start
                | S O => start +! step
                | _ => start +! of_int (Z.of_nat i) *! delta
                end)
      (seq 0 n).

End Pandas.
End pd.

(** ** [portfolio.py] *)

Record date := { year : Z; month : Z; day : Z }.

Module portfolio.
Section Portfolio.
Context `{A : Arith}.

Record TickerWeight := { ticker : string; weight : num }.

(** The market-data provider behind [yf.download(...)['Adj Close']]: the
    table of adjusted closing prices for the tickers, the date range and the
    interval asked for. *)
Definition Provider := list string -> date -> date -> string -> pd.DataFrame.

Variable yf_download : Provider.

(** Whether [pct_change] forward fills (the installed pandas decides). *)
Variable pad : bool.

Record Portfolio := {
  assets : list TickerWeight;
  start_date : date;
  end_date : date;
  rebalancing_frequency : string;
  tickers : list string;
  weights : list num;
  market_data : pd.DataFrame;
  market_returns : pd.DataFrame
}.

Definition get_market_data (tickers : list string) (start_date end_date : date)
    (rebalancing_frequency : string) : pd.DataFrame :=
  yf_download tickers start_date end_date rebalancing_frequency.

Definition calculate_market_returns (market_data : pd.DataFrame) : pd.DataFrame :=
  pd.dropna (pd.pct_change pad market_data).

(** The dataclass constructor followed by [__post_init__]. *)
Definition init (assets : list TickerWeight) (start_date end_date : date)
    (rebalancing_frequency : string) : Portfolio :=
  let tickers := map ticker assets in
  let weights := map weight assets in
  let weights := map (fun w => w /! pd.np_sum weights) weights in
  let market_data := get_market_data tickers start_date end_date rebalancing_frequency in
  let market_returns := calculate_market_returns market_data in
  {| assets := assets; start_date := start_date; end_date := end_date;
     rebalancing_frequency := rebalancing_frequency;
     tickers := tickers; weights := weights;
     market_data := market_data; market_returns := market_returns |}.

Definition asset_volatility_decomposition (self : Portfolio) : option pd.Series :=
  let asset_volatilities := pd.df_std (market_returns self) in
  pd.mul_ndarray asset_volatilities (weights self).

Definition portfolio_return_metrics (self : Portfolio)
    : option (pd.Series * pd.Series * pd.Series * pd.Series) :=
  portfolio_returns <- pd.matmul (market_returns self) (weights self) ;;
  let portfolio_value := pd.cumprod (map (fun r => of_int 1 +! r) portfolio_returns) in
  let cumulative_pnl := map (fun v => v -! of_int 1) portfolio_value in
  let pnl := pd.fillna (of_int 0) (pd.diff portfolio_value) in
  Some (portfolio_returns, portfolio_value, cumulative_pnl, pnl).

Definition portfolio_volatility_metrics (self : Portfolio)
    (risk_free_rate alpha : num) : option (num * num * num * num * num) :=
  '(portfolio_returns, _, _, _) <- portfolio_return_metrics self ;;
  let market_returns := pd.df_mean_rows (market_returns self) in
  let portfolio_beta :=
    pd.cov portfolio_returns market_returns /! pd.var market_returns in
  portfolio_var <- pd.quantile portfolio_returns alpha ;;
  let portfolio_cvar :=
    pd.mean (filter (fun r => r <=! portfolio_var) portfolio_returns) in
  let portfolio_annualized_std :=
    pd.std portfolio_returns *! np_sqrt (of_int 12) *! of_int 100 in
  let annualized_sharpe_ratio :=
    (pd.mean portfolio_returns -! risk_free_rate) /! portfolio_annualized_std
      *! np_sqrt (of_int 12) in
  let downside_returns := filter (fun r => r <! risk_free_rate) portfolio_returns in
  let downside_std :=
    match downside_returns with
    | [] => np_nan
    | _ => pd.std downside_returns
    end in
  let sortino_ratio :=
    if negb (np_isnan downside_std)
    then (pd.mean portfolio_returns -! risk_free_rate) /! downside_std
    else np_nan in
  Some (portfolio_annualized_std, portfolio_beta, annualized_sharpe_ratio,
        portfolio_cvar, sortino_ratio).

End Portfolio.
End portfolio.

(** ** [sensitivity_analysis.py] *)

Module sensitivity_analysis.
Section Sweep.
Context `{A : Arith}.

Variable yf_download : portfolio.Provider.
Variable pad : bool.

(** [date.fromisoformat]; [None] is its [ValueError]. *)
Variable fromisoformat : string -> option date.

(** What the loops have collected when plotting starts. *)
Record Collected := {
  portfolios : list portfolio.Portfolio;
  sharpe_ratios : list num;
  cvars : list num;
  sortino_ratios : list num;
  portfolio_values : list pd.Series;
  net_returns : list num
}.

Definition sweep_tickers : list string := ["SPY"; "AGG"; "TIP"]%string.

Definition sweep_weights (tips_allocation : num) : list num :=
  [lit 6 10; lit 4 10 -! tips_allocation; tips_allocation].

Definition sweep_grid : list num := pd.np_arange (of_int 0) (lit 21 100) (lit 5 100).

(** The first loop: one portfolio per TIPS allocation of the grid. *)
Definition build_portfolios (start_date end_date : date) : list portfolio.Portfolio :=
  map (fun tips_allocation =>
         let weights := sweep_weights tips_allocation in
         let assets := map2 (@portfolio.Build_TickerWeight _) sweep_tickers weights in
         portfolio.init yf_download pad assets start_date end_date "1mo")
      sweep_grid.

(** The second loop: each portfolio's metrics, appended to the five lists. *)
Fixpoint collect (todo : list portfolio.Portfolio) (acc : Collected) : option Collected :=
  match todo with
  | [] => Some acc
  | p :: todo' =>
    '(_, portfolio_value, _, _) <- portfolio.portfolio_return_metrics p ;;
    '(_, _, sharpe_ratio, cvar, sortino_ratio) <-
       portfolio.portfolio_volatility_metrics p (of_int 0) (lit 5 100) ;;
    net_return <- pd.iloc_last portfolio_value ;;
    collect todo'
      {| portfolios := portfolios acc;
         sharpe_ratios := sharpe_ratios acc ++ [sharpe_ratio];
         cvars := cvars acc ++ [cvar];
         sortino_ratios := sortino_ratios acc ++ [sortino_ratio];
         portfolio_values := portfolio_values acc ++ [portfolio_value];
         net_returns := net_returns acc ++ [net_return] |}
  end.

(** [plot_sensitivity_analysis] up to the plots, which only read the lists. *)
Definition plot_sensitivity_analysis (start_date_str end_date_str : string)
    : option Collected :=
  start_date <- fromisoformat start_date_str ;;
  end_date <- fromisoformat end_date_str ;;
  let ps := build_portfolios start_date end_date in
  collect ps {| portfolios := ps; sharpe_ratios := []; cvars := [];
                sortino_ratios := []; portfolio_values := []; net_returns := [] |}.

End Sweep.
End sensitivity_analysis.

(** What the second loop has appended to the five lists, entry by entry. *)
Definition collected_at `{A : Arith} (sharpes cvars sortinos : list num)
    (values : list pd.Series) (nets : list num)
    (i : nat) (p : portfolio.Portfolio) : Prop :=
  exists rets value cpnl pnl std beta sharpe cvar sortino net,
    portfolio.portfolio_return_metrics p = Some (rets, value, cpnl, pnl) /\
    portfolio.portfolio_volatility_metrics p (of_int 0) (lit 5 100) =
      Some (std, beta, sharpe, cvar, sortino) /\
    pd.iloc_last value = Some net /\
    nth_error sharpes i = Some sharpe /\
    nth_error cvars i = Some cvar /\
    nth_error sortinos i = Some sortino /\
    nth_error values i = Some value /\
    nth_error nets i = Some net.

(** ** Instance: binary64, the doubles of numpy *)

Module Binary64.

Definition of_int (z : Z) : float :=
  match z with
  | Z0 => PrimFloat.zero
  | Zpos _ => PrimFloat.of_uint63 (Uint63.of_Z z)
  | Zneg p => PrimFloat.opp (PrimFloat.of_uint63 (Uint63.of_Z (Zpos p)))
  end.

Definition floor (f : float) : Z :=
  match Prim2SF f with
  | S754_finite s m e =>
    let z := if s then Zneg m else Zpos m in
    if (0 <=? e)%Z then (z * 2 ^ e)%Z else (z / 2 ^ (- e))%Z
  | _ => 0%Z
  end.

Definition isfinite (f : float) : bool :=
  match Prim2SF f with
  | S754_zero _ | S754_finite _ _ _ => true
  | _ => false
  end.

#[export] Instance arith : Arith :=
  Build_Arith PrimFloat.add PrimFloat.sub PrimFloat.mul PrimFloat.div
    PrimFloat.sqrt PrimFloat.ltb PrimFloat.leb PrimFloat.is_nan isfinite
    PrimFloat.nan of_int floor.

End Binary64.

(** ** The weighted sum of the specification

    Follows the specification's words, for comparison with [pd.matmul]: the
    sum over the assets [i] of [weights[i] * market_returns[t, i]], read as
    a sum is defined: the first term plus the sum of the terms after it,
    the empty sum being [0.0]. *)
Definition spec_weighted_sum `{Arith} (weights row : list num) : num :=
  fold_right add (of_int 0)
    (map (fun i => nth i weights (of_int 0) *! nth i row (of_int 0))
         (seq 0 (length weights))).

(** ** Synthetic market data

    Stand-ins for the market-data provider, on binary64: the tables a test
    double would serve. *)

Module Sample.
Import Binary64.

Definition jan2021 : date := {| year := 2021; month := 1; day := 1 |}.
Definition dec2023 : date := {| year := 2023; month := 12; day := 31 |}.

Definition TW (t : string) (w : float) : portfolio.TickerWeight :=
  portfolio.Build_TickerWeight (A := arith) t w.

(** Two tickers over four dates: three period returns, the last one negative. *)
Definition two_assets : portfolio.Provider := fun _ _ _ _ =>
  {| pd.columns := ["A"; "B"]%string;
     pd.rows := [[100; 50]; [101; 50.5]; [102; 51]; [101; 50.5]]%float |}.

Definition assets_a_b : list portfolio.TickerWeight :=
  [TW "A" (lit 6 10); TW "B" (lit 4 10)].

Definition p_two_assets : portfolio.Portfolio :=
  portfolio.init two_assets true assets_a_b jan2021 dec2023 "1mo".

(** A provider that serves its columns in alphabetical order of the ticker
    symbols, whatever the order they were asked in. *)
Definition price_book : list (string * list float) :=
  [("SPY", [100; 110; 99; 120]); ("AGG", [50; 50.5; 51; 50.5])]%string%float.

Definition prices_of (t : string) : list float :=
  match find (fun e => String.eqb (fst e) t) price_book with
  | Some e => snd e
  | None => []
  end.

Fixpoint insert_ticker (t : string) (ts : list string) : list string :=
  match ts with
  | [] => [t]
  | u :: us => if String.leb t u then t :: u :: us else u :: insert_ticker t us
  end.

Definition alphabetical (ts : list string) : list string :=
  fold_right insert_ticker [] ts.

Definition alphabetical_provider : portfolio.Provider := fun ts _ _ _ =>
  let cols := alphabetical ts in
  {| pd.columns := cols;
     pd.rows := map (fun t => map (fun c => nth t (prices_of c) PrimFloat.nan) cols)
                    (seq 0 4) |}.

Definition p_spy_agg : portfolio.Portfolio :=
  portfolio.init alphabetical_provider true
    [TW "SPY" (lit 6 10); TW "AGG" (lit 4 10)] jan2021 dec2023 "1mo".

(** A table whose first price of ticker A is missing. *)
Definition late_listing : portfolio.Provider := fun _ _ _ _ =>
  {| pd.columns := ["A"; "B"]%string;
     pd.rows := [[PrimFloat.nan; 50]; [101; 50.5]; [102; 51]]%float |}.

Definition p_late_listing (pad : bool) : portfolio.Portfolio :=
  portfolio.init late_listing pad assets_a_b jan2021 dec2023 "1mo".

(** Dates [YYYY-MM-DD] of the sweep's two calls. *)
Definition fromisoformat (s : string) : option date :=
  if String.eqb s "2021-01-01" then Some jan2021
  else if String.eqb s "2023-12-31" then Some dec2023
  else None.

End Sample.

(** ** Special values

    The edge cases below divide by zero and meet nan. *)

(** What the edge cases use of the arithmetic, true of IEEE arithmetic: nan
    times a value and a value divided by nan are nan; no quotient by zero
    is finite; a product or a sum with an infinity or nan is not finite. *)
Class SpecialLaws (A : Arith) : Prop := {
  nan_mul : forall x, np_nan *! x = np_nan;
  div_nan : forall x, x /! np_nan = np_nan;
  div_zero : forall x, np_isfinite (x /! of_int 0) = false;
  mul_special : forall x y, np_isfinite y = false -> np_isfinite (x *! y) = false;
  add_special_l : forall x y, np_isfinite x = false -> np_isfinite (x +! y) = false;
  add_special_r : forall x y, np_isfinite y = false -> np_isfinite (x +! y) = false
}.

(** ** Rounding

    What the statements on exact results use, true of IEEE arithmetic with
    rounding to nearest: a product does not depend on the order of its
    factors; dividing by one changes nothing; a finite value is a number,
    and so are the difference of two finite values and the quotient of a
    finite value by a number that is not zero; only a number is at most
    another value; starting a sum from [0.0] does not change it when it is a
    number; and the quantile of equal finite values at a level in [0, 1],
    which interpolates between the value and itself, equals that value. Sums
    and products are rounded, so no law says that addition is associative or
    that [n * c / n] is [c]. *)
Class RoundingLaws (A : Arith) : Prop := {
  mul_comm : forall x y, x *! y = y *! x;
  div_one : forall x, x /! of_int 1 = x;
  finite_is_number : forall x, np_isfinite x = true -> np_isnan x = false;
  finite_difference : forall x y,
    np_isfinite x = true -> np_isfinite y = true -> np_isnan (x -! y) = false;
  quotient_is_number : forall x y,
    np_isfinite x = true -> np_isnan y = false -> np_equal y (of_int 0) = false ->
    np_isnan (x /! y) = false;
  leb_number : forall x y, x <=! y = true -> np_isnan x = false;
  zero_add : forall x y,
    np_isnan (x +! y) = false -> np_equal (of_int 0 +! x +! y) (x +! y) = true;
  flat_quantile : forall c q k j,
    np_isfinite c = true ->
    (of_int 0 <=! q) && (q <=! of_int 1) = true ->
    np_equal (c +! (c -! c) *! (q *! of_int k -! of_int j)) c = true
}.

(** ** Tables and allocations for the edge cases *)

Module EdgeSample.
Import Binary64.

(** Two tickers over two dates: a single period return. *)
Definition two_dates : portfolio.Provider := fun _ _ _ _ =>
  {| pd.columns := ["A"; "B"]%string;
     pd.rows := [[100; 50]; [101; 50.5]]%float |}.

Definition p_two_dates : portfolio.Portfolio :=
  portfolio.init two_dates true Sample.assets_a_b Sample.jan2021 Sample.dec2023 "1mo".

(** A long and a short position of the same size. *)
Definition long_short : list portfolio.TickerWeight :=
  [Sample.TW "A" (of_int 1); Sample.TW "B" (of_int (-1))].

Definition p_long_short : portfolio.Portfolio :=
  portfolio.init Sample.two_assets true long_short Sample.jan2021 Sample.dec2023 "1mo".

(** A single date: prices, and no return. *)
Definition one_date : portfolio.Provider := fun _ _ _ _ =>
  {| pd.columns := ["A"; "B"]%string; pd.rows := [[100; 50]]%float |}.

Definition p_one_date : portfolio.Portfolio :=
  portfolio.init one_date true Sample.assets_a_b Sample.jan2021 Sample.dec2023 "1mo".

(** The three tickers of the sweep, over four dates and over one. *)
Definition three_assets : portfolio.Provider := fun _ _ _ _ =>
  {| pd.columns := ["SPY"; "AGG"; "TIP"]%string;
     pd.rows := [[100; 50; 20]; [110; 51; 21]; [99; 50; 22]; [120; 52; 21]]%float |}.

Definition three_assets_one_date : portfolio.Provider := fun _ _ _ _ =>
  {| pd.columns := ["SPY"; "AGG"; "TIP"]%string;
     pd.rows := [[100; 50; 20]]%float |}.

(** Three finite raw weights that nearly cancel: [10^16 + 2], [-10^16] and
    [1]; each is a double, and their sum is [3.0]. *)
Definition cancelling : list portfolio.TickerWeight :=
  [Sample.TW "SPY" (of_int 10000000000000002);
   Sample.TW "AGG" (of_int (-10000000000000000));
   Sample.TW "TIP" (of_int 1)].

Definition p_cancelling : portfolio.Portfolio :=
  portfolio.init three_assets true cancelling Sample.jan2021 Sample.dec2023 "1mo".

(** Two raw weights of [2^1023]: finite doubles whose sum overflows. *)
Definition huge : list portfolio.TickerWeight :=
  [Sample.TW "A" 0x1p1023%float; Sample.TW "B" 0x1p1023%float].

Definition p_huge : portfolio.Portfolio :=
  portfolio.init Sample.two_assets true huge Sample.jan2021 Sample.dec2023 "1mo".

(** The three-asset allocation of [comparative_analysis.py]. *)
Definition assets_6_3_1 : list portfolio.TickerWeight :=
  [Sample.TW "SPY" (lit 6 10); Sample.TW "AGG" (lit 3 10); Sample.TW "TIP" (lit 1 10)].

Definition p_three_assets : portfolio.Portfolio :=
  portfolio.init three_assets true assets_6_3_1 Sample.jan2021 Sample.dec2023 "1mo".

(** Ticker A is quoted at zero on the second date. *)
Definition zero_price : portfolio.Provider := fun _ _ _ _ =>
  {| pd.columns := ["A"; "B"]%string;
     pd.rows := [[1; 1]; [0; 1]; [1; 1]; [1; 1]]%float |}.

Definition p_zero_price : portfolio.Portfolio :=
  portfolio.init zero_price true Sample.assets_a_b Sample.jan2021 Sample.dec2023 "1mo".

(** Constant returns: ticker A gains a quarter and ticker B an eighth in
    every period; every price and every return is a double. *)
Definition steady_growth : portfolio.Provider := fun _ _ _ _ =>
  {| pd.columns := ["A"; "B"]%string;
     pd.rows := [[1; 1]; [1.25; 1.125]; [1.5625; 1.265625];
                 [1.953125; 1.423828125]]%float |}.

Definition p_steady_growth : portfolio.Portfolio :=
  portfolio.init steady_growth true Sample.assets_a_b Sample.jan2021 Sample.dec2023 "1mo".

Definition p_steady_long_short : portfolio.Portfolio :=
  portfolio.init steady_growth true long_short Sample.jan2021 Sample.dec2023 "1mo".

End EdgeSample.

(** ** Magnitudes of binary64 values

    What the proofs that nothing overflows speak of: a mantissa that is not
    negative and below [2^k], and a float that is a zero or a finite value
    below [2^b] in absolute value. *)
Definition below (k m : Z) : Prop := (0 <= m < 2 ^ Z.max k 0)%Z.

Definition small (b : Z) (x : spec_float) : Prop :=
  match x with
  | S754_zero _ => True
  | S754_finite _ m e => (Z.pos (digits2_pos m) + e <= b)%Z
  | _ => False
  end.

(** * Properties *)

(** ** The instances satisfy the laws *)

(** *** Binary64

    Rounding to nearest never produces nan: the quotient of two finite
    floats, and a difference with a finite float, are numbers. *)

Section RoundingNeverNan.
Variables prec emax : Z.

Lemma shr_1_nonneg (mrs : shr_record) :
  (0 <= shr_m mrs)%Z -> (0 <= shr_m (shr_1 mrs))%Z.
Proof.
  destruct mrs as [m r s]. simpl.
  destruct m as [|[p|p|]|[p|p|]]; simpl; lia.
Qed.

Lemma iter_pos_invariant {X} (P : X -> Prop) (f : X -> X) :
  (forall x, P x -> P (f x)) -> forall n x, P x -> P (iter_pos f n x).
Proof.
  intros Hf. induction n as [n IH|n IH|]; intros x Hx; simpl; auto.
Qed.

Lemma shr_fexp_nonneg (m e : Z) (l : location) :
  (0 <= m)%Z -> (0 <= shr_m (fst (shr_fexp prec emax m e l)))%Z.
Proof.
  intros Hm. unfold shr_fexp, shr.
  assert (H0 : (0 <= shr_m (shr_record_of_loc m l))%Z)
    by (destruct l as [|[]]; exact Hm).
  destruct (fexp prec emax (Zdigits2 m + e) - e)%Z; simpl; auto.
  apply (iter_pos_invariant (fun mrs => (0 <= shr_m mrs)%Z)); auto using shr_1_nonneg.
Qed.

Lemma round_nearest_even_nonneg (m : Z) (l : location) :
  (0 <= m)%Z -> (0 <= round_nearest_even m l)%Z.
Proof.
  intros Hm. destruct l as [|[]]; simpl; try lia.
  destruct (Z.even m); lia.
Qed.

Lemma binary_round_aux_not_nan (sx : bool) (mx ex : Z) (lx : location) :
  (0 <= mx)%Z -> binary_round_aux prec emax sx mx ex lx <> S754_nan.
Proof.
  intros Hm. unfold binary_round_aux.
  pose proof (@shr_fexp_nonneg mx ex lx Hm) as H1.
  destruct (shr_fexp prec emax mx ex lx) as [mrs' e']. simpl in H1.
  pose proof (@shr_fexp_nonneg
                (round_nearest_even (shr_m mrs') (loc_of_shr_record mrs')) e' loc_Exact
                (@round_nearest_even_nonneg _ _ H1)) as H2.
  destruct (shr_fexp prec emax _ e' loc_Exact) as [mrs'' e'']. simpl in H2.
  destruct (shr_m mrs''); try lia; try discriminate.
  destruct (e'' <=? emax - prec)%Z; discriminate.
Qed.

Lemma binary_normalize_not_nan (m e : Z) (szero : bool) :
  binary_normalize prec emax m e szero <> S754_nan.
Proof.
  unfold binary_normalize, binary_round.
  destruct m; try discriminate;
    destruct (shl_align _ _ _); apply binary_round_aux_not_nan; lia.
Qed.

Lemma SFdiv_finite_not_nan (sx sy : bool) (mx my : positive) (ex ey : Z) :
  SFdiv prec emax (S754_finite sx mx ex) (S754_finite sy my ey) <> S754_nan.
Proof.
  unfold SFdiv, SFdiv_core_binary.
  set (m' := match (ex - ey - _)%Z with Z.pos _ => _ | Z0 => _ | Z.neg _ => _ end).
  assert (Hm' : (0 <= m')%Z).
  { unfold m'. destruct (ex - ey - _)%Z; try lia.
    apply Z.shiftl_nonneg. lia. }
  pose proof (Z_div_mod m' (Z.pos my) eq_refl) as Hd.
  destruct (Z.div_eucl m' (Z.pos my)) as [q r].
  apply binary_round_aux_not_nan. nia.
Qed.

Lemma SFsub_finite_not_nan (x : spec_float) (sy : bool) (my : positive) (ey : Z) :
  x <> S754_nan -> SFsub prec emax x (S754_finite sy my ey) <> S754_nan.
Proof.
  intros Hx. destruct x as [s|s| |s m e]; simpl; try discriminate; try contradiction.
  apply binary_normalize_not_nan.
Qed.
End RoundingNeverNan.

Lemma SFcompare_Lt_flip (x y : spec_float) :
  SFcompare x y = Some Lt -> SFcompare y x = Some Gt.
Proof.
  destruct x as [sx| sx | |sx mx ex], y as [sy|sy| |sy my ey]; simpl;
    try discriminate; try reflexivity;
    repeat match goal with
           | b : bool |- _ => destruct b
           end; simpl; try discriminate; try reflexivity;
    change (Pos.compare_cont Eq mx my) with (mx ?= my)%positive;
    change (Pos.compare_cont Eq my mx) with (my ?= mx)%positive;
    rewrite (Z.compare_antisym ex ey), (Pos.compare_antisym mx my);
    destruct (ex ?= ey)%Z; simpl; try discriminate; try reflexivity;
    destruct (mx ?= my)%positive; simpl; try discriminate; reflexivity.
Qed.

Lemma SFcompare_refl (x : spec_float) :
  x <> S754_nan -> SFcompare x x = Some Eq.
Proof.
  destruct x as [s|s| |s m e]; simpl; try contradiction; intros _;
    try (destruct s; reflexivity).
  rewrite Z.compare_refl, Pos.compare_cont_refl. destruct s; reflexivity.
Qed.

Lemma is_nan_Prim2SF (x : float) :
  PrimFloat.is_nan x = match Prim2SF x with S754_nan => true | _ => false end.
Proof.
  unfold PrimFloat.is_nan. rewrite FloatAxioms.eqb_spec. unfold SFeqb.
  destruct (Prim2SF x) eqn:E; try reflexivity;
    rewrite SFcompare_refl by discriminate; reflexivity.
Qed.

Lemma binary64_price (x : float) :
  is_price (H := Binary64.arith) x = true ->
  exists m e, Prim2SF x = S754_finite false m e.
Proof.
  unfold is_price. cbn [np_isfinite ltb of_int Binary64.arith].
  unfold Binary64.isfinite. rewrite FloatAxioms.ltb_spec.
  change (Prim2SF (Binary64.of_int 0)) with (S754_zero false).
  destruct (Prim2SF x) as [s|s| |s m e]; simpl; try discriminate.
  destruct s; try discriminate. eauto.
Qed.

Lemma binary64_price_is_number (p : float) :
  is_price (H := Binary64.arith) p = true -> PrimFloat.is_nan p = false.
Proof.
  intros Hp. destruct (@binary64_price p Hp) as (m & e & Hx).
  now rewrite is_nan_Prim2SF, Hx.
Qed.

Lemma binary64_change_from_nan (p : float) :
  PrimFloat.is_nan (p / PrimFloat.nan - Binary64.of_int 1)%float = true.
Proof.
  rewrite is_nan_Prim2SF, FloatAxioms.sub_spec, FloatAxioms.div_spec.
  change (Prim2SF PrimFloat.nan) with S754_nan.
  destruct (Prim2SF p); reflexivity.
Qed.

Lemma binary64_change_of_prices (p q : float) :
  is_price (H := Binary64.arith) p = true ->
  is_price (H := Binary64.arith) q = true ->
  PrimFloat.is_nan (p / q - Binary64.of_int 1)%float = false.
Proof.
  intros Hp Hq.
  destruct (@binary64_price p Hp) as (mp & ep & Ep).
  destruct (@binary64_price q Hq) as (mq & eq & Eq).
  rewrite is_nan_Prim2SF, FloatAxioms.sub_spec, FloatAxioms.div_spec, Ep, Eq.
  change (Prim2SF (Binary64.of_int 1)) with (S754_finite false 4503599627370496 (-52)).
  pose proof (@SFsub_finite_not_nan prec emax
                (SF64div (S754_finite false mp ep) (S754_finite false mq eq))
                false 4503599627370496 (-52)
                (@SFdiv_finite_not_nan prec emax false false mp mq ep eq)) as H.
  destruct (SF64sub _ _) eqn:Es; try reflexivity.
  exfalso. apply H. exact Es.
Qed.

#[export] Instance binary64_laws : ArithLaws Binary64.arith.
Proof.
  split.
  - reflexivity.
  - reflexivity.
  - intros x y. cbn. rewrite !FloatAxioms.ltb_spec. unfold SFltb.
    destruct (SFcompare (Prim2SF x) (Prim2SF y)) as [[]|] eqn:E; try discriminate.
    intros _. now rewrite (SFcompare_Lt_flip _ _ E).
  - exact binary64_price_is_number.
  - exact binary64_change_from_nan.
  - exact binary64_change_of_prices.
Qed.

(** *** Binary64: what rounding leaves exact

    A product rounds the same whatever the order of its factors; a finite
    value minus itself is [+0.0]; the quotient of a double by [1.0] needs no
    rounding, and neither does the quotient of a finite value by twice
    itself. *)

Lemma SFmul_comm (x y : spec_float) : SF64mul x y = SF64mul y x.
Proof.
  destruct x as [sx|sx| |sx mx ex], y as [sy|sy| |sy my ey]; simpl;
    try reflexivity; try (now rewrite xorb_comm).
  unfold SF64mul, SFmul. now rewrite xorb_comm, Pos.mul_comm, Z.add_comm.
Qed.

Lemma SFsub_self (s : bool) (m : positive) (e : Z) :
  SF64sub (S754_finite s m e) (S754_finite s m e) = S754_zero false.
Proof.
  unfold SF64sub, SFsub. rewrite Z.min_id. unfold shl_align.
  rewrite (Z.sub_diag e). cbn [fst]. now rewrite Z.sub_diag.
Qed.

Lemma div_eucl_exact (a b q : Z) :
  (0 < b)%Z -> a = (b * q)%Z -> Z.div_eucl a b = (q, 0%Z).
Proof.
  intros Hb Ha. generalize (Z_div_mod a b ltac:(lia)).
  destruct (Z.div_eucl a b) as [q' r]. intros [H1 H2].
  assert (q' = q) by nia. subst q'. f_equal. lia.
Qed.

(** [x / 1.0]: the mantissa of [1.0] is [2^52], so the quotient of the
    shifted mantissa is the mantissa itself (subnormal [x]) or twice the
    mantissa, which one shift to the right brings back; nothing is lost. *)
Lemma SFdiv_one (x : spec_float) :
  valid_binary x = true ->
  SF64div x (S754_finite false 4503599627370496 (-52)) = x.
Proof.
  destruct x as [s|s| |s m e]; intros Hv;
    try reflexivity; try (destruct s; reflexivity).
  unfold valid_binary, bounded, canonical_mantissa in Hv.
  apply andb_prop in Hv. destruct Hv as [Hc He].
  apply Z.eqb_eq in Hc. apply Z.leb_le in He.
  unfold SF64div, SFdiv, SFdiv_core_binary.
  cbn [Zdigits2 digits2_pos].
  change (Z.pos (Pos.succ _)) with 53%Z.
  unfold fexp, emin in *. change prec with 53%Z in *. change emax with 1024%Z in *.
  set (d := Z.pos (digits2_pos m)) in *.
  assert (Hd : (0 < d)%Z) by (unfold d; lia).
  rewrite xorb_false_r.
  destruct (Z.eq_dec e (-1074)) as [E|E].
  - replace (Z.min (Z.max (d + e - (53 + -52) - 53) (3 - 1024 - 53)) (e - -52))
      with e by lia.
    replace (e - -52 - e)%Z with 52%Z by lia.
    rewrite (@div_eucl_exact _ _ (Z.pos m));
      [|lia|rewrite Z.shiftl_mul_pow2 by lia; lia].
    change (new_location 4503599627370496 0) with loc_Exact.
    unfold binary_round_aux, shr_fexp. cbn [Zdigits2 shr_record_of_loc]. fold d.
    unfold fexp, emin.
    replace (Z.max (d + e - 53) (3 - 1024 - 53) - e)%Z with 0%Z by lia.
    cbn [shr shr_m loc_of_shr_record round_nearest_even Zdigits2 shr_record_of_loc].
    fold d.
    replace (Z.max (d + e - 53) (3 - 1024 - 53) - e)%Z with 0%Z by lia.
    cbn [shr shr_m].
    apply Z.leb_le in He. now rewrite He.
  - replace (Z.min (Z.max (d + e - (53 + -52) - 53) (3 - 1024 - 53)) (e - -52))
      with (e - 1)%Z by lia.
    replace (e - -52 - (e - 1))%Z with 53%Z by lia.
    rewrite (@div_eucl_exact _ _ (Z.pos m~0));
      [|lia|rewrite Z.shiftl_mul_pow2 by lia; lia].
    change (new_location 4503599627370496 0) with loc_Exact.
    unfold binary_round_aux, shr_fexp. cbn [Zdigits2 digits2_pos shr_record_of_loc].
    rewrite Pos2Z.inj_succ. fold d.
    unfold fexp, emin.
    replace (Z.max (Z.succ d + (e - 1) - 53) (3 - 1024 - 53) - (e - 1))%Z
      with 1%Z by lia.
    cbn [shr iter_pos shr_1 orb shr_m loc_of_shr_record round_nearest_even
         Zdigits2 shr_record_of_loc].
    fold d.
    replace (e - 1 + 1)%Z with e by lia.
    replace (Z.max (d + e - 53) (3 - 1024 - 53) - e)%Z with 0%Z by lia.
    cbn [shr shr_m].
    apply Z.leb_le in He. now rewrite He.
Qed.

(** [x / (x + x)]: the quotient of the shifted mantissa by the mantissa is a
    power of two, and nothing is rounded. *)
Lemma SFdiv_half_normal (s : bool) (m : positive) (e : Z) :
  Z.pos (digits2_pos m) = 53%Z ->
  SF64div (S754_finite s m e) (S754_finite s m (e + 1))
  = S754_finite false 4503599627370496 (-53).
Proof.
  intros Hd. unfold SF64div, SFdiv, SFdiv_core_binary.
  cbn [Zdigits2]. rewrite Hd.
  unfold fexp, emin. change prec with 53%Z. change emax with 1024%Z.
  replace (Z.min (Z.max (53 + e - (53 + (e + 1)) - 53) (3 - 1024 - 53)) (e - (e + 1)))
    with (-54)%Z by lia.
  replace (e - (e + 1) - -54)%Z with 53%Z by lia.
  rewrite (@div_eucl_exact _ _ 9007199254740992);
    [|lia|rewrite Z.shiftl_mul_pow2 by lia; lia].
  rewrite xorb_nilpotent.
  replace (new_location (Z.pos m) 0) with loc_Exact
    by (unfold new_location; destruct (Z.even (Z.pos m)); reflexivity).
  reflexivity.
Qed.

Lemma SFdiv_half_subnormal (s : bool) (m : positive) (e : Z) :
  SF64div (S754_finite s m e) (S754_finite s m~0 e)
  = S754_finite false 4503599627370496 (-53).
Proof.
  unfold SF64div, SFdiv, SFdiv_core_binary.
  cbn [Zdigits2 digits2_pos]. rewrite Pos2Z.inj_succ.
  set (d := Z.pos (digits2_pos m)).
  unfold fexp, emin. change prec with 53%Z. change emax with 1024%Z.
  replace (Z.min (Z.max (d + e - (Z.succ d + e) - 53) (3 - 1024 - 53)) (e - e))
    with (-54)%Z by lia.
  replace (e - e - -54)%Z with 54%Z by lia.
  rewrite (@div_eucl_exact _ _ 9007199254740992);
    [|lia|rewrite Z.shiftl_mul_pow2 by lia; lia].
  rewrite xorb_nilpotent.
  replace (new_location (Z.pos m~0) 0) with loc_Exact
    by (unfold new_location; destruct (Z.even (Z.pos m~0)); reflexivity).
  reflexivity.
Qed.

(** [x + x] for a finite [x]: the mantissa doubles when there is room for
    one more bit (subnormal [x]), and the exponent goes up by one
    otherwise, to infinity past the largest exponent. *)
Lemma SFadd_self (s : bool) (m : positive) (e : Z) :
  valid_binary (S754_finite s m e) = true ->
  SF64add (S754_finite s m e) (S754_finite s m e) =
  if (Z.pos (digits2_pos m) =? 53)%Z
  then if (e + 1 <=? 971)%Z then S754_finite s m (e + 1) else S754_infinity s
  else S754_finite s m~0 e.
Proof.
  intros Hv.
  unfold valid_binary, bounded, canonical_mantissa in Hv.
  apply andb_prop in Hv. destruct Hv as [Hc He].
  apply Z.eqb_eq in Hc. apply Z.leb_le in He.
  unfold fexp, emin in Hc. change prec with 53%Z in *. change emax with 1024%Z in *.
  unfold SF64add, SFadd. rewrite Z.min_id. unfold shl_align at 1 2.
  rewrite Z.sub_diag. cbn [fst].
  replace (cond_Zopp s (Z.pos m) + cond_Zopp s (Z.pos m))%Z
    with (cond_Zopp s (Z.pos m~0)) by (destruct s; cbn [cond_Zopp]; lia).
  assert (Hn : binary_normalize prec emax (cond_Zopp s (Z.pos m~0)) e false
               = binary_round prec emax s m~0 e) by (destruct s; reflexivity).
  rewrite Hn. unfold binary_round.
  cbn [digits2_pos]. rewrite Pos2Z.inj_succ.
  set (d := Z.pos (digits2_pos m)) in *.
  assert (Hd : (0 < d)%Z) by (unfold d; lia).
  unfold fexp at 1, emin. change prec with 53%Z. change emax with 1024%Z.
  unfold shl_align.
  destruct (Z.eqb_spec d 53) as [E|E].
  - replace (Z.max (Z.succ d + e - 53) (3 - 1024 - 53) - e)%Z with 1%Z by lia.
    unfold binary_round_aux, shr_fexp.
    cbn [Zdigits2 digits2_pos shr_record_of_loc]. rewrite Pos2Z.inj_succ. fold d.
    unfold fexp, emin.
    replace (Z.max (Z.succ d + e - 53) (3 - 1024 - 53) - e)%Z with 1%Z by lia.
    cbn [shr iter_pos shr_1 orb shr_m loc_of_shr_record round_nearest_even
         Zdigits2 shr_record_of_loc].
    fold d.
    replace (Z.max (d + (e + 1) - 53) (3 - 1024 - 53) - (e + 1))%Z with 0%Z by lia.
    cbn [shr shr_m]. reflexivity.
  - replace (Z.max (Z.succ d + e - 53) (3 - 1024 - 53) - e)%Z with 0%Z by lia.
    unfold binary_round_aux, shr_fexp.
    cbn [Zdigits2 digits2_pos shr_record_of_loc]. rewrite Pos2Z.inj_succ. fold d.
    unfold fexp, emin.
    replace (Z.max (Z.succ d + e - 53) (3 - 1024 - 53) - e)%Z with 0%Z by lia.
    cbn [shr shr_m loc_of_shr_record round_nearest_even Zdigits2 digits2_pos
         shr_record_of_loc].
    rewrite Pos2Z.inj_succ. fold d.
    replace (Z.max (Z.succ d + e - 53) (3 - 1024 - 53) - e)%Z with 0%Z by lia.
    cbn [shr shr_m].
    apply Z.leb_le in He. now rewrite He.
Qed.

Lemma SFcompare_Eq_flip (x y : spec_float) :
  SFcompare x y = Some Eq -> SFcompare y x = Some Eq.
Proof.
  destruct x as [sx| sx | |sx mx ex], y as [sy|sy| |sy my ey]; simpl;
    try discriminate; try reflexivity;
    repeat match goal with
           | b : bool |- _ => destruct b
           end; simpl; try discriminate; try reflexivity;
    change (Pos.compare_cont Eq mx my) with (mx ?= my)%positive;
    change (Pos.compare_cont Eq my mx) with (my ?= mx)%positive;
    rewrite (Z.compare_antisym ex ey), (Pos.compare_antisym mx my);
    destruct (ex ?= ey)%Z; simpl; try discriminate; try reflexivity;
    destruct (mx ?= my)%positive; simpl; try discriminate; reflexivity.
Qed.

(** On binary64 [np_equal] is the equality test of the floats. *)
Lemma binary64_np_equal (x y : float) :
  np_equal (H := Binary64.arith) x y = PrimFloat.eqb x y.
Proof.
  unfold np_equal. cbn [leb Binary64.arith].
  rewrite !FloatAxioms.leb_spec, FloatAxioms.eqb_spec. unfold SFleb, SFeqb.
  destruct (SFcompare (Prim2SF x) (Prim2SF y)) as [[]|] eqn:E; try reflexivity.
  - now rewrite (SFcompare_Eq_flip _ _ E).
  - now rewrite (SFcompare_Lt_flip _ _ E).
Qed.

Lemma SFleb_refl (x : spec_float) : x <> S754_nan -> SFleb x x = true.
Proof. intros H. unfold SFleb. now rewrite SFcompare_refl. Qed.

Lemma binary64_finite (x : float) :
  Binary64.isfinite x = true ->
  (exists s, Prim2SF x = S754_zero s) \/ (exists s m e, Prim2SF x = S754_finite s m e).
Proof.
  unfold Binary64.isfinite.
  destruct (Prim2SF x) as [s|s| |s m e]; try discriminate; eauto.
Qed.

Lemma binary64_mul_comm (x y : float) : (x * y = y * x)%float.
Proof.
  apply Prim2SF_inj. rewrite !FloatAxioms.mul_spec. apply SFmul_comm.
Qed.

Lemma binary64_div_one (x : float) : (x / Binary64.of_int 1 = x)%float.
Proof.
  apply Prim2SF_inj. rewrite FloatAxioms.div_spec.
  change (Prim2SF (Binary64.of_int 1)) with (S754_finite false 4503599627370496 (-52)).
  apply SFdiv_one, Prim2SF_valid.
Qed.

(** A finite value other than zero, over twice itself when that does not
    overflow, is [0.5]. *)
Lemma binary64_half (w : float) :
  Binary64.isfinite w = true ->
  np_equal (H := Binary64.arith) w (Binary64.of_int 0) = false ->
  Binary64.isfinite (w + w)%float = true ->
  (w / (Binary64.of_int 0 + w + w) = lit (H := Binary64.arith) 1 2)%float.
Proof.
  unfold Binary64.isfinite, np_equal. cbn [leb Binary64.arith].
  intros Hf Hnz Hs. apply Prim2SF_inj.
  rewrite FloatAxioms.div_spec, !FloatAxioms.add_spec.
  rewrite FloatAxioms.add_spec in Hs. rewrite !FloatAxioms.leb_spec in Hnz.
  change (Prim2SF (Binary64.of_int 0)) with (S754_zero false) in *.
  change (Prim2SF (lit (H := Binary64.arith) 1 2))
    with (S754_finite false 4503599627370496 (-53)).
  pose proof (Prim2SF_valid w) as Hv.
  destruct (Prim2SF w) as [[]|sw| |s m e]; try discriminate.
  change (SF64add (S754_zero false) (S754_finite s m e)) with (S754_finite s m e).
  rewrite (SFadd_self _ _ _ Hv) in *.
  destruct (Z.pos (digits2_pos m) =? 53)%Z eqn:Ed.
  - destruct (e + 1 <=? 971)%Z; [|discriminate Hs].
    apply SFdiv_half_normal. now apply Z.eqb_eq.
  - apply SFdiv_half_subnormal.
Qed.



Lemma binary64_finite_difference (x y : float) :
  Binary64.isfinite x = true -> Binary64.isfinite y = true ->
  PrimFloat.is_nan (x - y)%float = false.
Proof.
  unfold Binary64.isfinite. rewrite is_nan_Prim2SF, FloatAxioms.sub_spec.
  destruct (Prim2SF y) as [sy|sy| |sy my ey]; try discriminate.
  - destruct (Prim2SF x) as [[]|sx| |sx mx ex]; try discriminate;
      destruct sy; reflexivity.
  - intros Hx _.
    pose proof (@SFsub_finite_not_nan prec emax (Prim2SF x) sy my ey) as H.
    destruct (SF64sub _ _) eqn:E; try reflexivity.
    exfalso. apply H; [|exact E]. intros N. now rewrite N in Hx.
Qed.

Lemma binary64_quotient_is_number (x y : float) :
  Binary64.isfinite x = true -> PrimFloat.is_nan y = false ->
  np_equal (H := Binary64.arith) y (Binary64.of_int 0) = false ->
  PrimFloat.is_nan (x / y)%float = false.
Proof.
  unfold np_equal, Binary64.isfinite. cbn [leb Binary64.arith].
  rewrite !is_nan_Prim2SF, !FloatAxioms.leb_spec, FloatAxioms.div_spec.
  change (Prim2SF (Binary64.of_int 0)) with (S754_zero false).
  destruct (Prim2SF x) as [sx|sx| |sx mx ex]; try discriminate;
    destruct (Prim2SF y) as [[]|sy| |sy my ey]; try discriminate;
    try reflexivity.
  intros _ _ _.
  pose proof (@SFdiv_finite_not_nan prec emax sx sy mx my ex ey) as H.
  destruct (SF64div _ _) eqn:E; try reflexivity.
  exfalso. apply H. exact E.
Qed.

Lemma binary64_leb_number (x y : float) :
  PrimFloat.leb x y = true -> PrimFloat.is_nan x = false.
Proof.
  rewrite FloatAxioms.leb_spec, is_nan_Prim2SF.
  destruct (Prim2SF x); try reflexivity. discriminate.
Qed.

(** [0.0 + x] is [x], except that [0.0 + -0.0] is [0.0]; the two zeros
    compare equal and give the same sum with every other value. *)
Lemma binary64_zero_add (x y : float) :
  PrimFloat.is_nan (x + y)%float = false ->
  np_equal (H := Binary64.arith) (Binary64.of_int 0 + x + y)%float (x + y)%float = true.
Proof.
  unfold np_equal. cbn [leb Binary64.arith].
  rewrite is_nan_Prim2SF, !FloatAxioms.leb_spec, !FloatAxioms.add_spec.
  change (Prim2SF (Binary64.of_int 0)) with (S754_zero false).
  intros Hn.
  assert (Hu : SF64add (Prim2SF x) (Prim2SF y) <> S754_nan)
    by (intros E; now rewrite E in Hn).
  destruct (Prim2SF x) as [[]|sx| |sx mx ex] eqn:Ex.
  - destruct (Prim2SF y) as [[]|[]| |sy my ey]; try reflexivity;
      try (exfalso; apply Hu; reflexivity).
    change (SF64add (SF64add (S754_zero false) (S754_zero true)) (S754_finite sy my ey))
      with (S754_finite sy my ey).
    change (SF64add (S754_zero true) (S754_finite sy my ey)) with (S754_finite sy my ey).
    now rewrite SFleb_refl.
  - change (SF64add (S754_zero false) (S754_zero false)) with (S754_zero false).
    now rewrite SFleb_refl.
  - change (SF64add (S754_zero false) (S754_infinity sx)) with (S754_infinity sx).
    now rewrite SFleb_refl.
  - exfalso. apply Hu. reflexivity.
  - change (SF64add (S754_zero false) (S754_finite sx mx ex)) with (S754_finite sx mx ex).
    now rewrite SFleb_refl.
Qed.

(** *** Binary64: no overflow on small values

    The position [q * (n - 1)] of a quantile at a level [q] in [0, 1] and
    its distance to an integer stay far below the largest double. The bound
    is carried through the rounding of the IEEE specification: a shift to
    the right by [n] bits takes a mantissa below [2^k] to one below
    [2^(k - n)], rounding to nearest adds at most one, and the rounded value
    of a mantissa below [2^k] at exponent [e] is below [2^(k + e + 1)]. *)

Lemma digits2_pos_lt (p : positive) : (Z.pos p < 2 ^ Z.pos (digits2_pos p))%Z.
Proof.
  induction p as [p IH|p IH|]; cbn [digits2_pos]; try rewrite Pos2Z.inj_succ;
    try rewrite Z.pow_succ_r by lia; try lia.
Qed.

Lemma digits2_pos_ge (p : positive) : (2 ^ (Z.pos (digits2_pos p) - 1) <= Z.pos p)%Z.
Proof.
  induction p as [p IH|p IH|]; cbn [digits2_pos]; try rewrite Pos2Z.inj_succ;
    try (replace (Z.succ (Z.pos (digits2_pos p)) - 1)%Z
           with (Z.succ (Z.pos (digits2_pos p) - 1)) by lia;
         rewrite Z.pow_succ_r by lia; lia).
  simpl. lia.
Qed.

Lemma below_Zdigits2 (k m : Z) : below k m -> (Zdigits2 m <= Z.max k 0)%Z.
Proof.
  unfold below. intros [H0 H1]. destruct m as [|p|p]; cbn [Zdigits2]; try lia.
  pose proof (digits2_pos_ge p) as Hge.
  assert (Hlt : (2 ^ (Z.pos (digits2_pos p) - 1) < 2 ^ Z.max k 0)%Z) by lia.
  apply Z.pow_lt_mono_r_iff in Hlt; lia.
Qed.

Lemma below_mono (k k' m : Z) : (k <= k')%Z -> below k m -> below k' m.
Proof.
  unfold below. intros Hk [H0 H1]. split; [exact H0|].
  eapply Z.lt_le_trans; [exact H1|]. apply Z.pow_le_mono_r; lia.
Qed.

Lemma shr_1_below (k : Z) (mrs : shr_record) :
  below k (shr_m mrs) -> below (k - 1) (shr_m (shr_1 mrs)).
Proof.
  unfold below. destruct mrs as [m r s]. cbn [shr_m]. intros [H0 H1].
  assert (Hk : (Z.max k 0 = 0 \/ Z.max k 0 = Z.succ (Z.max (k - 1) 0))%Z) by lia.
  destruct Hk as [Hk|Hk]; rewrite Hk in H1.
  - assert (m = 0%Z) by (simpl in H1; lia). subst m. simpl. lia.
  - rewrite Z.pow_succ_r in H1 by lia.
    destruct m as [|[p|p|]|p]; cbn [shr_1 shr_m]; try lia;
      split; try lia; apply Z.pow_pos_nonneg; lia.
Qed.

Lemma iter_shr_1_below (n : positive) (k : Z) (mrs : shr_record) :
  below k (shr_m mrs) -> below (k - Z.pos n) (shr_m (iter_pos shr_1 n mrs)).
Proof.
  revert k mrs. induction n as [n IH|n IH|]; intros k mrs H; cbn [iter_pos].
  - apply shr_1_below in H. apply IH in H. apply IH in H.
    eapply below_mono; [|exact H]. lia.
  - apply IH in H. apply IH in H. eapply below_mono; [|exact H]. lia.
  - now apply shr_1_below.
Qed.

Lemma shr_m_of_loc (m : Z) (l : location) : shr_m (shr_record_of_loc m l) = m.
Proof. destruct l as [|[]]; reflexivity. Qed.

Lemma shr_fexp_small (B k m e : Z) (l : location) :
  (-1074 <= B)%Z -> (0 <= k)%Z -> below k m -> (k + e <= B)%Z ->
  exists k', (0 <= k')%Z /\
    below k' (shr_m (fst (shr_fexp prec emax m e l))) /\
    (k' + snd (shr_fexp prec emax m e l) <= B)%Z.
Proof.
  intros HB Hk Hm He. unfold shr_fexp, shr.
  pose proof (below_Zdigits2 Hm) as Hd.
  assert (Hf : fexp prec emax (Zdigits2 m + e)
               = Z.max (Zdigits2 m + e - 53) (-1074)) by reflexivity.
  destruct (fexp prec emax (Zdigits2 m + e) - e)%Z as [|p|p] eqn:En; cbn [fst snd].
  - exists k. rewrite shr_m_of_loc. repeat split; auto; try apply Hm; lia.
  - exists (Z.max (k - Z.pos p) 0). split; [lia|]. split.
    + assert (H : below (k - Z.pos p)
                    (shr_m (iter_pos shr_1 p (shr_record_of_loc m l))))
        by (apply iter_shr_1_below; now rewrite shr_m_of_loc).
      unfold below in *.
      replace (Z.max (Z.max (k - Z.pos p) 0) 0) with (Z.max (k - Z.pos p) 0) by lia.
      exact H.
    + lia.
  - exists k. rewrite shr_m_of_loc. repeat split; auto; try apply Hm; lia.
Qed.

Lemma round_nearest_even_below (k m : Z) (l : location) :
  (0 <= k)%Z -> below k m -> below (k + 1) (round_nearest_even m l).
Proof.
  unfold below. intros Hk [H0 H1].
  rewrite Z.max_l in H1 by lia. rewrite Z.max_l by lia.
  rewrite Z.pow_add_r by lia. change (2 ^ 1)%Z with 2%Z.
  destruct l as [|[]]; cbn [round_nearest_even]; try destruct (Z.even m); lia.
Qed.

(** Rounding a mantissa below [2^k] at exponent [e], with [k + e <= B]
    inside the range of the format, gives a value below [2^(B + 1)]: no
    overflow. *)
Lemma binary_round_aux_small (B k : Z) (s : bool) (m e : Z) (l : location) :
  (-1074 <= B <= 971)%Z -> (0 <= k)%Z -> below k m -> (k + e <= B)%Z ->
  small (B + 1) (binary_round_aux prec emax s m e l).
Proof.
  intros HB Hk Hm He. unfold binary_round_aux.
  destruct (@shr_fexp_small B k m e l) as (k1 & Hk1 & Hm1 & He1); try lia; auto.
  destruct (shr_fexp prec emax m e l) as [mrs1 e1]. cbn [fst snd] in *.
  pose proof (@round_nearest_even_below k1 _ (loc_of_shr_record mrs1) Hk1 Hm1) as Hr.
  destruct (@shr_fexp_small (B + 1) (k1 + 1)
              (round_nearest_even (shr_m mrs1) (loc_of_shr_record mrs1)) e1 loc_Exact)
    as (k2 & Hk2 & Hm2 & He2); try lia; auto.
  destruct (shr_fexp prec emax _ e1 loc_Exact) as [mrs2 e2]. cbn [fst snd] in *.
  pose proof (below_Zdigits2 Hm2) as Hd.
  destruct (shr_m mrs2) as [|p|p]; cbn [small]; auto.
  - cbn [Zdigits2] in Hd.
    assert (Hle : (e2 <=? emax - prec)%Z = true)
      by (apply Z.leb_le; change (emax - prec)%Z with 971%Z; lia).
    rewrite Hle. cbn [small]. lia.
  - destruct Hm2 as [H0 _]. lia.
Qed.

Lemma small_mono (a b : Z) (x : spec_float) : (a <= b)%Z -> small a x -> small b x.
Proof. destruct x; cbn [small]; auto; lia. Qed.

Lemma SFmul_small (a b : Z) (x y : spec_float) :
  (0 <= a)%Z -> (0 <= b)%Z -> (a + b <= 971)%Z ->
  small a x -> small b y -> small (a + b + 1) (SF64mul x y).
Proof.
  intros Ha Hb Hab Hx Hy.
  destruct x as [sx|sx| |sx mx ex], y as [sy|sy| |sy my ey];
    cbn [small] in Hx, Hy; try contradiction; try exact I.
  unfold SF64mul, SFmul.
  apply (@binary_round_aux_small (a + b)
           (Z.pos (digits2_pos mx) + Z.pos (digits2_pos my))); try lia.
  unfold below. rewrite Z.max_l by lia. split; [lia|].
  rewrite Z.pow_add_r by lia. rewrite Pos2Z.inj_mul.
  pose proof (digits2_pos_lt mx). pose proof (digits2_pos_lt my). nia.
Qed.

Lemma iter_xO (m d : positive) : Z.pos (Pos.iter xO m d) = (Z.pos m * 2 ^ Z.pos d)%Z.
Proof.
  induction d as [|d IH] using Pos.peano_ind.
  - cbn [Pos.iter]. change (2 ^ 1)%Z with 2%Z. lia.
  - rewrite Pos.iter_succ, Pos2Z.inj_xO, IH, Pos2Z.inj_succ, Z.pow_succ_r by lia. lia.
Qed.

Lemma shl_align_spec (mx : positive) (ex ex' : Z) :
  (snd (shl_align mx ex ex') <= ex)%Z /\
  Z.pos (fst (shl_align mx ex ex')) =
    (Z.pos mx * 2 ^ (ex - snd (shl_align mx ex ex')))%Z.
Proof.
  unfold shl_align. destruct (ex' - ex)%Z as [|d|d] eqn:E; cbn [fst snd].
  - rewrite Z.sub_diag. split; lia.
  - rewrite Z.sub_diag. split; lia.
  - split; [lia|]. rewrite iter_xO. f_equal. f_equal. lia.
Qed.

Lemma binary_round_small (B k : Z) (s : bool) (p : positive) (e : Z) :
  (-1074 <= B <= 971)%Z -> (0 <= k)%Z -> (Z.pos p < 2 ^ k)%Z -> (k + e <= B)%Z ->
  small (B + 1) (binary_round prec emax s p e).
Proof.
  intros HB Hk Hp He. unfold binary_round.
  destruct (shl_align_spec p e (fexp prec emax (Z.pos (digits2_pos p) + e)))
    as [Hle Hval].
  destruct (shl_align p e _) as [mz ez]. cbn [fst snd] in *.
  apply (@binary_round_aux_small B (k + (e - ez))); try lia.
  unfold below. rewrite Z.max_l by lia. split; [lia|].
  rewrite Hval, Z.pow_add_r by lia.
  assert (0 < 2 ^ (e - ez))%Z by (apply Z.pow_pos_nonneg; lia). nia.
Qed.

Lemma binary_normalize_small (B k : Z) (m e : Z) (szero : bool) :
  (-1074 <= B <= 971)%Z -> (0 <= k)%Z -> (Z.abs m < 2 ^ k)%Z -> (k + e <= B)%Z ->
  small (B + 1) (binary_normalize prec emax m e szero).
Proof.
  intros HB Hk Hm He. destruct m as [|p|p]; cbn [binary_normalize small]; auto;
    apply (@binary_round_small B k); auto.
Qed.

Lemma SFsub_small (a : Z) (x y : spec_float) :
  (0 <= a <= 969)%Z -> small a x -> small a y -> small (a + 2) (SF64sub x y).
Proof.
  intros Ha Hx Hy.
  destruct x as [sx|sx| |sx mx ex], y as [sy|sy| |sy my ey];
    cbn [small] in Hx, Hy; try contradiction.
  - destruct sx, sy; exact I.
  - cbn [SF64sub SFsub small]. lia.
  - cbn [SF64sub SFsub small]. lia.
  - unfold SF64sub, SFsub.
    set (ez := Z.min ex ey).
    destruct (shl_align_spec mx ex ez) as [Hxe Hxv].
    destruct (shl_align_spec my ey ez) as [Hye Hyv].
    assert (Hxs : snd (shl_align mx ex ez) = ez).
    { unfold shl_align. destruct (ez - ex)%Z eqn:E; cbn [snd]; lia. }
    assert (Hys : snd (shl_align my ey ez) = ez).
    { unfold shl_align. destruct (ez - ey)%Z eqn:E; cbn [snd]; lia. }
    rewrite Hxs in Hxv. rewrite Hys in Hyv.
    replace (a + 2)%Z with (a + 1 + 1)%Z by lia.
    apply (@binary_normalize_small (a + 1) (a + 1 - ez)); try lia.
    pose proof (digits2_pos_lt mx) as Lx. pose proof (digits2_pos_lt my) as Ly.
    assert (Bx : (Z.pos (fst (shl_align mx ex ez)) < 2 ^ (a - ez))%Z).
    { rewrite Hxv.
      replace (a - ez)%Z with ((a - ex) + (ex - ez))%Z by lia.
      rewrite Z.pow_add_r by lia.
      assert (2 ^ Z.pos (digits2_pos mx) <= 2 ^ (a - ex))%Z
        by (apply Z.pow_le_mono_r; lia).
      assert (0 < 2 ^ (ex - ez))%Z by (apply Z.pow_pos_nonneg; lia). nia. }
    assert (By : (Z.pos (fst (shl_align my ey ez)) < 2 ^ (a - ez))%Z).
    { rewrite Hyv.
      replace (a - ez)%Z with ((a - ey) + (ey - ez))%Z by lia.
      rewrite Z.pow_add_r by lia.
      assert (2 ^ Z.pos (digits2_pos my) <= 2 ^ (a - ey))%Z
        by (apply Z.pow_le_mono_r; lia).
      assert (0 < 2 ^ (ey - ez))%Z by (apply Z.pow_pos_nonneg; lia). nia. }
    replace (a + 1 - ez)%Z with (Z.succ (a - ez)) by lia.
    rewrite Z.pow_succ_r by lia.
    destruct sx, sy; cbn [cond_Zopp]; lia.
Qed.

Lemma SFopp_small (a : Z) (x : spec_float) : small a x -> small a (SFopp x).
Proof. destruct x; cbn [small SFopp]; auto. Qed.

(** Every [of_int z] is below [2^64]: the conversion reads [z] as an
    unsigned integer of 63 bits. *)
Lemma binary64_of_int_small (z : Z) : small 64 (Prim2SF (Binary64.of_int z)).
Proof.
  assert (H : forall n, small 64 (Prim2SF (of_uint63 n))).
  { intros n. rewrite FloatAxioms.of_uint63_spec.
    assert (Hn : (0 <= Uint63.to_Z n < 2 ^ 63)%Z) by apply Uint63.to_Z_bounded.
    apply (@binary_normalize_small 63 63); try lia. }
  destruct z as [|p|p]; cbn [Binary64.of_int].
  - exact I.
  - apply H.
  - rewrite FloatAxioms.opp_spec. apply SFopp_small, H.
Qed.

(** A level in [0, 1] is a zero or a positive value of at most [1.0]. *)
Lemma binary64_level_small (q : float) :
  PrimFloat.leb (Binary64.of_int 0) q && PrimFloat.leb q (Binary64.of_int 1) = true ->
  small 1 (Prim2SF q).
Proof.
  rewrite !FloatAxioms.leb_spec.
  change (Prim2SF (Binary64.of_int 0)) with (S754_zero false).
  change (Prim2SF (Binary64.of_int 1)) with (S754_finite false 4503599627370496 (-52)).
  pose proof (Prim2SF_valid q) as Hv. intros H.
  apply andb_prop in H. destruct H as [H0 H1].
  destruct (Prim2SF q) as [s|s| |s m e]; cbn [small]; try exact I;
    try (destruct s; discriminate); try discriminate.
  unfold valid_binary, bounded, canonical_mantissa in Hv.
  apply andb_prop in Hv. destruct Hv as [Hc _]. apply Z.eqb_eq in Hc.
  unfold fexp, emin in Hc. change prec with 53%Z in Hc. change emax with 1024%Z in Hc.
  destruct s; [discriminate H0|].
  unfold SFleb, SFcompare in H1.
  destruct (Z.compare_spec e (-52)); try discriminate; lia.
Qed.

(** The interpolation weight of a quantile at a level in [0, 1] is finite. *)
Lemma binary64_weight_finite (q : float) (k j : Z) :
  PrimFloat.leb (Binary64.of_int 0) q && PrimFloat.leb q (Binary64.of_int 1) = true ->
  small 68 (Prim2SF (q * Binary64.of_int k - Binary64.of_int j)%float).
Proof.
  intros Hq. rewrite FloatAxioms.sub_spec, FloatAxioms.mul_spec.
  apply (@SFsub_small 66); try lia.
  - apply (@SFmul_small 1 64); try lia.
    + now apply binary64_level_small.
    + apply binary64_of_int_small.
  - apply small_mono with (a := 64%Z); [lia|apply binary64_of_int_small].
Qed.

(** [c + (c - c) * f] for a finite [c] and the interpolation weight [f] of a
    level in [0, 1]: the difference is [+0.0], its product with the finite
    [f] is a zero, and [c] plus a zero is [c] or, when [c] is a zero, a
    zero. *)
Lemma binary64_flat_quantile (c q : float) (k j : Z) :
  Binary64.isfinite c = true ->
  PrimFloat.leb (Binary64.of_int 0) q && PrimFloat.leb q (Binary64.of_int 1) = true ->
  np_equal (H := Binary64.arith)
    (c + (c - c) * (q * Binary64.of_int k - Binary64.of_int j))%float c = true.
Proof.
  intros Hc Hq. pose proof (binary64_weight_finite q k j Hq) as Hf.
  unfold np_equal. cbn [leb Binary64.arith].
  rewrite !FloatAxioms.leb_spec, !FloatAxioms.add_spec.
  rewrite (FloatAxioms.mul_spec (c - c)), (FloatAxioms.sub_spec c c).
  destruct (binary64_finite c Hc) as [[s E]|(s & m & e & E)]; rewrite E.
  - replace (SF64sub (S754_zero s) (S754_zero s)) with (S754_zero false)
      by (destruct s; reflexivity).
    destruct (Prim2SF _) as [sf|sf| |sf mf ef]; try contradiction;
      destruct s, sf; reflexivity.
  - rewrite SFsub_self.
    destruct (Prim2SF _) as [sf|sf| |sf mf ef]; try contradiction;
      match goal with
      | |- context [SF64mul ?a ?b] =>
        change (SF64mul a b) with (S754_zero (xorb false sf))
      end;
      change (SF64add (S754_finite s m e) (S754_zero (xorb false sf)))
        with (S754_finite s m e);
      now rewrite SFleb_refl.
Qed.

#[export] Instance binary64_rounding : RoundingLaws Binary64.arith.
Proof.
  split.
  - exact binary64_mul_comm.
  - exact binary64_div_one.
  - intros x. cbn. unfold Binary64.isfinite. rewrite is_nan_Prim2SF.
    destruct (Prim2SF x); try discriminate; reflexivity.
  - exact binary64_finite_difference.
  - exact binary64_quotient_is_number.
  - exact binary64_leb_number.
  - exact binary64_zero_add.
  - exact binary64_flat_quantile.
Qed.

(** ** Helper lemmas on lists *)

Lemma map2_length {A B C} (f : A -> B -> C) (xs : list A) (ys : list B) :
  length xs = length ys -> length (map2 f xs ys) = length xs.
Proof.
  revert ys. induction xs as [|x xs IH]; intros [|y ys] E; simpl in *;
    try discriminate; auto.
Qed.

Lemma map2_nth {A B C} (f : A -> B -> C) (xs : list A) (ys : list B) i da db dc :
  (i < length xs)%nat -> (i < length ys)%nat ->
  nth i (map2 f xs ys) dc = f (nth i xs da) (nth i ys db).
Proof.
  revert ys i. induction xs as [|x xs IH]; intros [|y ys] [|i] Hx Hy; simpl in *;
    try lia; auto.
  apply IH; lia.
Qed.

(** ** The volatility metrics, line by line *)

Section VolatilityMetrics.
Context `{L : ArithLaws}.

Lemma quantile_returns (xs : pd.Series) (q : num) :
  (of_int 0 <=! q) && (q <=! of_int 1) = true ->
  exists v, pd.quantile xs q = Some v.
Proof.
  intros H. unfold pd.quantile. rewrite H.
  destruct (pd.sort (pd.notna xs)); eauto.
Qed.

Lemma quantile_raises (xs : pd.Series) (q : num) :
  (of_int 0 <=! q) && (q <=! of_int 1) = false -> pd.quantile xs q = None.
Proof. intros H. unfold pd.quantile. now rewrite H. Qed.

(** X2: a level outside [0, 1] makes [Series.quantile] raise, and the
    volatility metrics with it. *)
Lemma volatility_metrics_raise_outside_unit_interval
    (self : portfolio.Portfolio) (rf alpha : num) :
  (of_int 0 <=! alpha) && (alpha <=! of_int 1) = false ->
  portfolio.portfolio_volatility_metrics self rf alpha = None.
Proof.
  intros Ha. unfold portfolio.portfolio_volatility_metrics.
  destruct (portfolio.portfolio_return_metrics self) as [[[[rets ?] ?] ?]|];
    [|reflexivity].
  simpl. now rewrite quantile_raises.
Qed.

Lemma std_short (xs : pd.Series) : (length xs <= 1)%nat -> pd.std xs = np_nan.
Proof.
  intros H. unfold pd.std, pd.var.
  assert (Hn : (length (pd.notna xs) <= 1)%nat).
  { unfold pd.notna.
    pose proof (filter_length_le (fun x => negb (np_isnan x)) xs). lia. }
  apply Nat.leb_le in Hn. rewrite Hn. apply sqrt_nan.
Qed.

Lemma volatility_metrics_lines (self : portfolio.Portfolio) (rf alpha : num)
    rets value cpnl pnl var :
  portfolio.portfolio_return_metrics self = Some (rets, value, cpnl, pnl) ->
  pd.quantile rets alpha = Some var ->
  portfolio.portfolio_volatility_metrics self rf alpha =
  Some (pd.std rets *! np_sqrt (of_int 12) *! of_int 100,
        pd.cov rets (pd.df_mean_rows (portfolio.market_returns self))
          /! pd.var (pd.df_mean_rows (portfolio.market_returns self)),
        (pd.mean rets -! rf) /! (pd.std rets *! np_sqrt (of_int 12) *! of_int 100)
          *! np_sqrt (of_int 12),
        pd.mean (filter (fun r => r <=! var) rets),
        if negb (np_isnan match filter (fun r => r <! rf) rets with
                          | [] => np_nan
                          | _ => pd.std (filter (fun r => r <! rf) rets)
                          end)
        then (pd.mean rets -! rf) /!
             match filter (fun r => r <! rf) rets with
             | [] => np_nan
             | _ => pd.std (filter (fun r => r <! rf) rets)
             end
        else np_nan).
Proof.
  intros Hr Hq. unfold portfolio.portfolio_volatility_metrics.
  rewrite Hr. simpl. rewrite Hq. reflexivity.
Qed.

Lemma no_downside (rets : pd.Series) (rf : num) :
  Forall (fun r => rf <! r = true) rets -> filter (fun r => r <! rf) rets = [].
Proof.
  induction 1 as [|r rets Hr _ IH]; simpl; auto.
  now rewrite (ltb_asym _ _ Hr).
Qed.

(** C10: a portfolio with exactly one return strictly below the risk-free
    rate gets the not-a-number marker as its Sortino ratio: the sample
    standard deviation of the single downside return is nan. *)
Theorem sortino_nan_on_single_downside (self : portfolio.Portfolio) (rf alpha : num)
    rets value cpnl pnl :
  portfolio.portfolio_return_metrics self = Some (rets, value, cpnl, pnl) ->
  (of_int 0 <=! alpha) && (alpha <=! of_int 1) = true ->
  length (filter (fun r => r <! rf) rets) = 1%nat ->
  exists std beta sharpe cvar,
    portfolio.portfolio_volatility_metrics self rf alpha =
    Some (std, beta, sharpe, cvar, np_nan).
Proof.
  intros Hr Ha H1. destruct (quantile_returns rets alpha Ha) as [var Hq].
  rewrite (volatility_metrics_lines self rf alpha Hr Hq).
  do 4 eexists. f_equal. f_equal.
  destruct (filter (fun r => r <! rf) rets) as [|d ds] eqn:E; [discriminate|].
  rewrite std_short by (simpl in *; lia).
  now rewrite isnan_nan.
Qed.

(** C5, as amended: the Sortino ratio is (mean - risk-free rate) over the
    standard deviation of the returns strictly below the risk-free rate
    whenever that deviation is a number, and the not-a-number marker
    whenever it is not; it is not a number as soon as fewer than two returns
    fall below the risk-free rate, hence when the risk-free rate is below
    every observed return. *)
Theorem sortino_ratio_cases (self : portfolio.Portfolio) (rf alpha : num)
    rets value cpnl pnl :
  portfolio.portfolio_return_metrics self = Some (rets, value, cpnl, pnl) ->
  (of_int 0 <=! alpha) && (alpha <=! of_int 1) = true ->
  exists std beta sharpe cvar sortino,
    portfolio.portfolio_volatility_metrics self rf alpha =
      Some (std, beta, sharpe, cvar, sortino) /\
    (np_isnan (pd.std (filter (fun r => r <! rf) rets)) = false ->
     sortino = (pd.mean rets -! rf) /! pd.std (filter (fun r => r <! rf) rets)) /\
    (np_isnan (pd.std (filter (fun r => r <! rf) rets)) = true ->
     sortino = np_nan) /\
    ((length (filter (fun r => r <! rf) rets) <= 1)%nat -> sortino = np_nan) /\
    (Forall (fun r => rf <! r = true) rets -> sortino = np_nan).
Proof.
  intros Hr Ha. destruct (quantile_returns rets alpha Ha) as [var Hq].
  rewrite (volatility_metrics_lines self rf alpha Hr Hq).
  do 5 eexists. split; [reflexivity|].
  set (down := filter (fun r => r <! rf) rets).
  assert (Hshort : (length down <= 1)%nat ->
    (if negb (np_isnan match down with [] => np_nan | _ => pd.std down end)
     then (pd.mean rets -! rf) /! match down with [] => np_nan | _ => pd.std down end
     else np_nan) = np_nan).
  { intros Hl. rewrite <- (std_short down Hl).
    destruct down; rewrite (std_short _ Hl), isnan_nan; reflexivity. }
  repeat split.
  - intros Hs. destruct down as [|d ds] eqn:E.
    + rewrite std_short, isnan_nan in Hs by (simpl; lia). discriminate.
    + now rewrite Hs.
  - intros Hs. destruct down as [|d ds] eqn:E.
    + now rewrite isnan_nan.
    + now rewrite Hs.
  - exact Hshort.
  - intros Hall. apply Hshort. unfold down.
    rewrite no_downside by exact Hall. simpl; lia.
Qed.

(** C8: the annualized standard deviation is std(returns) * sqrt(12) * 100
    and the annualized Sharpe ratio divides the mean excess return by that
    already scaled deviation and multiplies by sqrt(12), whatever rebalancing
    frequency the portfolio was built with. *)
Theorem annualized_std_and_sharpe (yf_download : portfolio.Provider) (pad : bool)
    (assets : list portfolio.TickerWeight) (start_date end_date : date)
    (rebalancing_frequency : string) (rf alpha : num) rets value cpnl pnl :
  let self := portfolio.init yf_download pad assets start_date end_date
                rebalancing_frequency in
  portfolio.portfolio_return_metrics self = Some (rets, value, cpnl, pnl) ->
  (of_int 0 <=! alpha) && (alpha <=! of_int 1) = true ->
  exists std beta sharpe cvar sortino,
    portfolio.portfolio_volatility_metrics self rf alpha =
      Some (std, beta, sharpe, cvar, sortino) /\
    std = pd.std rets *! np_sqrt (of_int 12) *! of_int 100 /\
    sharpe = (pd.mean rets -! rf) /! std *! np_sqrt (of_int 12).
Proof.
  intros self Hr Ha. destruct (quantile_returns rets alpha Ha) as [var Hq].
  rewrite (volatility_metrics_lines self rf alpha Hr Hq).
  do 5 eexists. repeat split.
Qed.

End VolatilityMetrics.

(** ** The volatility metrics on the two-asset table *)

Section TwoAssets.
Import Binary64.

Let self := Sample.p_two_assets.

Lemma sortino_nan_on_single_downside_witness :
  exists std beta sharpe cvar,
    portfolio.portfolio_volatility_metrics self (of_int 0) (lit 5 100) =
    Some (std, beta, sharpe, cvar, np_nan).
Proof.
  eapply (@sortino_nan_on_single_downside arith binary64_laws self).
  - vm_compute. reflexivity.
  - vm_compute. reflexivity.
  - vm_compute. reflexivity.
Defined.

Lemma sortino_ratio_cases_witness :
  exists std beta sharpe cvar sortino,
    portfolio.portfolio_volatility_metrics self (lit 1 100) (lit 5 100) =
      Some (std, beta, sharpe, cvar, sortino) /\
    np_isnan sortino = false.
Proof.
  destruct (@sortino_ratio_cases arith binary64_laws self (lit 1 100) (lit 5 100)
              _ _ _ _ eq_refl eq_refl)
    as (std & beta & sharpe & cvar & sortino & Hm & Hnum & _).
  exists std, beta, sharpe, cvar, sortino. split; [exact Hm|].
  rewrite Hnum by (vm_compute; reflexivity). vm_compute. reflexivity.
Defined.

Lemma annualized_std_and_sharpe_witness :
  exists rets value cpnl pnl std beta sharpe cvar sortino,
    portfolio.portfolio_return_metrics self = Some (rets, value, cpnl, pnl) /\
    portfolio.portfolio_volatility_metrics self (of_int 0) (lit 5 100) =
      Some (std, beta, sharpe, cvar, sortino) /\
    std = pd.std rets *! np_sqrt (of_int 12) *! of_int 100 /\
    sharpe = (pd.mean rets -! of_int 0) /! std *! np_sqrt (of_int 12).
Proof.
  destruct (@annualized_std_and_sharpe arith Sample.two_assets true
              Sample.assets_a_b Sample.jan2021 Sample.dec2023 "1mo"%string (of_int 0) (lit 5 100)
              _ _ _ _ eq_refl eq_refl)
    as (std & beta & sharpe & cvar & sortino & Hm & Hstd & Hsh).
  do 4 eexists. exists std, beta, sharpe, cvar, sortino.
  split; [reflexivity|]. split; [exact Hm|]. split; [exact Hstd | exact Hsh].
Defined.

(** C5, refuted as stated: on the two-asset table one return falls below a
    risk-free rate of zero, and the Sortino ratio is not a number all the
    same. *)
Lemma sortino_nan_iff_no_downside_refuted :
  ~ (forall rets value cpnl pnl std beta sharpe cvar sortino,
       portfolio.portfolio_return_metrics self = Some (rets, value, cpnl, pnl) ->
       portfolio.portfolio_volatility_metrics self (of_int 0) (lit 5 100) =
         Some (std, beta, sharpe, cvar, sortino) ->
       (np_isnan sortino = true <-> filter (fun r => r <! of_int 0) rets = [])).
Proof.
  intros H.
  specialize (H _ _ _ _ _ _ _ _ _ eq_refl eq_refl).
  destruct H as [H _]. specialize (H eq_refl).
  vm_compute in H. discriminate H.
Qed.

End TwoAssets.

(** ** The volatility decomposition pairs columns and weights by position *)

Section Decomposition.
Context `{A : Arith}.

Lemma mul_ndarray_same_length (s w : list num) :
  length s = length w -> pd.mul_ndarray s w = Some (map2 mul s w).
Proof.
  intros E. unfold pd.mul_ndarray. apply Nat.eqb_eq in E. now rewrite E.
Qed.

Lemma df_std_length (df : pd.DataFrame) : length (pd.df_std df) = pd.width df.
Proof. unfold pd.df_std. now rewrite length_map, length_seq. Qed.

Lemma df_std_nth (df : pd.DataFrame) (i : nat) (d : num) :
  (i < pd.width df)%nat -> nth i (pd.df_std df) d = pd.std (pd.column i df).
Proof.
  intros Hi. unfold pd.df_std.
  rewrite (nth_indep _ d (pd.std (pd.column 0 df)))
    by (now rewrite length_map, length_seq).
  rewrite (map_nth (fun i => pd.std (pd.column i df))).
  now rewrite seq_nth.
Qed.

(** X1: whatever the provider's column order, the i-th contribution is the
    deviation of the i-th column of the returns times the i-th weight. *)
Lemma asset_volatility_by_position (self : portfolio.Portfolio) :
  pd.width (portfolio.market_returns self) = length (portfolio.weights self) ->
  exists contributions,
    portfolio.asset_volatility_decomposition self = Some contributions /\
    length contributions = length (portfolio.weights self) /\
    forall i d, (i < length (portfolio.weights self))%nat ->
      nth i contributions d =
      pd.std (pd.column i (portfolio.market_returns self))
        *! nth i (portfolio.weights self) d.
Proof.
  intros Hw. unfold portfolio.asset_volatility_decomposition.
  rewrite mul_ndarray_same_length by (now rewrite df_std_length).
  eexists. split; [reflexivity|]. split.
  - rewrite map2_length; rewrite df_std_length; auto.
  - intros i d Hi.
    rewrite (map2_nth mul _ _ d d d) by (rewrite ?df_std_length; lia).
    rewrite df_std_nth by lia. reflexivity.
Qed.

End Decomposition.

(** C7, at the failing input: the assets are SPY (weight 0.6) then AGG
    (weight 0.4), the provider serves the columns AGG, SPY; the first
    contribution is the deviation of the AGG returns times the SPY weight,
    and not the deviation of the SPY returns times the SPY weight. *)
Theorem asset_volatility_pairs_spy_weight_with_agg_returns :
  let self := Sample.p_spy_agg in
  exists c0 c1 spy agg w_spy w_agg,
    map (@portfolio.ticker _) (portfolio.assets self) = ["SPY"; "AGG"]%string /\
    portfolio.weights self = [w_spy; w_agg] /\
    pd.get_column "SPY" (portfolio.market_returns self) = Some spy /\
    pd.get_column "AGG" (portfolio.market_returns self) = Some agg /\
    portfolio.asset_volatility_decomposition self = Some [c0; c1] /\
    c0 = pd.std agg *! w_spy /\
    c0 <> pd.std spy *! w_spy.
Proof.
  intros self. do 6 eexists.
  split; [vm_compute; reflexivity|].
  split; [vm_compute; reflexivity|].
  split; [vm_compute; reflexivity|].
  split; [vm_compute; reflexivity|].
  split; [vm_compute; reflexivity|].
  split; [vm_compute; reflexivity|].
  intros H. apply (f_equal Prim2SF) in H. vm_compute in H. discriminate H.
Qed.

(** ** Normalization of the weights *)

Section Normalization.
Context `{R : RoundingLaws}.

Lemma map_div_one (xs : list num) : map (fun w => w /! of_int 1) xs = xs.
Proof.
  induction xs as [|x xs IH]; simpl; [reflexivity|]. now rewrite div_one, IH.
Qed.


End Normalization.



(** ** Two equal raw weights *)

Section EqualPair.
Import Binary64.

(** X21: on binary64, two assets with the same raw weight, a finite value
    other than zero whose double does not overflow, are each stored with
    the weight [0.5], and the stored weights sum to exactly [1.0]; a ticker
    listed twice with equal weights is such a pair. *)
Theorem equal_pair_normalizes_to_halves (yf_download : portfolio.Provider (A := arith))
    (pad : bool) (ticker1 ticker2 : string) (w : float)
    (start_date end_date : date) (rebalancing_frequency : string) :
  let assets := [portfolio.Build_TickerWeight (A := arith) ticker1 w;
                 portfolio.Build_TickerWeight (A := arith) ticker2 w] in
  let self := portfolio.init yf_download pad assets start_date end_date
                rebalancing_frequency in
  np_isfinite w = true ->
  np_equal w (of_int 0) = false ->
  np_isfinite (w +! w) = true ->
  portfolio.weights self = [lit 1 2; lit 1 2] /\
  pd.np_sum (portfolio.weights self) = of_int 1.
Proof.
  intros assets self Hf Hnz Hs.
  assert (Hw : portfolio.weights self = [lit 1 2; lit 1 2]).
  { change (portfolio.weights self)
      with [(w / (Binary64.of_int 0 + w + w))%float;
            (w / (Binary64.of_int 0 + w + w))%float].
    now rewrite (binary64_half w Hf Hnz Hs). }
  split; [exact Hw|]. rewrite Hw. vm_compute. reflexivity.
Qed.

End EqualPair.

Lemma equal_pair_normalizes_to_halves_witness :
  portfolio.weights
    (portfolio.init Sample.two_assets true
       [Sample.TW "SPY" (Binary64.of_int 1); Sample.TW "SPY" (Binary64.of_int 1)]
       Sample.jan2021 Sample.dec2023 "1mo")
  = [lit 1 2; lit 1 2].
Proof.
  apply (@equal_pair_normalizes_to_halves Sample.two_assets true "SPY" "SPY"
           (Binary64.of_int 1) Sample.jan2021 Sample.dec2023 "1mo"%string);
    vm_compute; reflexivity.
Defined.

(** ** Portfolio returns are sums of weighted asset returns, left to right *)

Section WeightedSums.
Context `{R : RoundingLaws}.

Lemma products_by_position (r w : list num) (k : nat) :
  length r = length w ->
  map2 mul r w =
  map (fun i => nth (i - k) w (of_int 0) *! nth (i - k) r (of_int 0))
      (seq k (length w)).
Proof.
  revert w k. induction r as [|x r IH]; intros [|y w] k Hl; simpl in *;
    try discriminate; auto.
  rewrite Nat.sub_diag, mul_comm. f_equal.
  rewrite (IH w (S k)) by lia.
  apply map_ext_in. intros i Hi. apply in_seq in Hi.
  replace (i - k)%nat with (S (i - S k)) by lia. reflexivity.
Qed.

Lemma dot_left_to_right (r w : list num) :
  length r = length w ->
  pd.dot r w =
  fold_left add
    (map (fun i => nth i w (of_int 0) *! nth i r (of_int 0)) (seq 0 (length w)))
    (of_int 0).
Proof.
  intros Hl. unfold pd.dot, pd.np_sum.
  rewrite (products_by_position r w 0 Hl). f_equal.
  apply map_ext. intros i. now rewrite Nat.sub_0_r.
Qed.


End WeightedSums.



(** ** The return metrics: compounding, cumulative and per-period P&L *)

Section ReturnMetrics.
Context `{L : ArithLaws}.

Local Abbreviation number x := (np_isnan x = false).

Lemma cumprod_from_length (acc : num) (xs : pd.Series) :
  length (pd.cumprod_from acc xs) = length xs.
Proof. revert acc. induction xs; intros acc; simpl; auto. Qed.

Lemma cumprod_length (xs : pd.Series) : length (pd.cumprod xs) = length xs.
Proof. destruct xs; simpl; auto using cumprod_from_length. Qed.

Lemma cumprod_from_inputs (acc : num) (xs : pd.Series) :
  Forall (fun v => number v) (pd.cumprod_from acc xs) ->
  Forall (fun x => number x) xs.
Proof.
  revert acc. induction xs as [|x xs IH]; intros acc H; simpl in *; auto.
  inversion H as [|? ? Hx Hxs]; subst. constructor; [|eauto].
  destruct (np_isnan x); auto. now rewrite isnan_nan in Hx.
Qed.

Lemma cumprod_inputs (xs : pd.Series) :
  Forall (fun v => number v) (pd.cumprod xs) -> Forall (fun x => number x) xs.
Proof.
  destruct xs as [|x xs]; simpl; auto.
  intros H. inversion H as [|? ? Hx Hxs]; subst.
  constructor; [|eauto using cumprod_from_inputs].
  destruct (np_isnan x); auto. now rewrite isnan_nan in Hx.
Qed.

Lemma cumprod_from_steps (acc : num) (xs : pd.Series) (d : num) :
  Forall (fun x => number x) xs ->
  forall t, (t < length xs)%nat ->
    nth t (pd.cumprod_from acc xs) d =
    nth t (acc :: pd.cumprod_from acc xs) d *! nth t xs d.
Proof.
  intros H. revert acc. induction H as [|x xs Hx _ IH]; intros acc t Ht;
    simpl in Ht; [lia|].
  cbn [pd.cumprod_from]. rewrite Hx. destruct t as [|t]; [reflexivity|].
  cbn [nth]. apply IH. lia.
Qed.

Lemma cumprod_steps (xs : pd.Series) (d : num) :
  Forall (fun x => number x) xs ->
  forall t, (0 < t < length xs)%nat ->
    nth t (pd.cumprod xs) d = nth (t - 1) (pd.cumprod xs) d *! nth t xs d.
Proof.
  intros H t Ht. destruct H as [|x xs Hx Hxs]; simpl in Ht; [lia|].
  cbn [pd.cumprod]. rewrite Hx. destruct t as [|t]; [lia|].
  replace (S t - 1)%nat with t by lia. cbn [nth].
  apply (cumprod_from_steps x d Hxs). lia.
Qed.

Lemma cumprod_head (xs : pd.Series) (d : num) :
  Forall (fun x => number x) xs -> xs <> [] ->
  nth 0 (pd.cumprod xs) d = nth 0 xs d.
Proof.
  intros H Hne. destruct H as [|x xs Hx _]; [contradiction|].
  simpl. now rewrite Hx.
Qed.

Lemma diff_length (xs : pd.Series) : length (pd.diff xs) = length xs.
Proof.
  destruct xs as [|x xs]; simpl; auto. f_equal.
  assert (G : forall (ys : list num) y, length (map2 sub ys (y :: ys)) = length ys).
  { induction ys as [|z ys IH]; intros y; simpl; auto. }
  apply G.
Qed.

Lemma diff_steps (xs : pd.Series) (d : num) (t : nat) :
  (0 < t < length xs)%nat ->
  nth t (pd.diff xs) d = nth t xs d -! nth (t - 1) xs d.
Proof.
  intros Ht. destruct xs as [|x xs]; simpl in Ht; [lia|].
  destruct t as [|t]; [lia|]. replace (S t - 1)%nat with t by lia.
  change (nth (S t) (pd.diff (x :: xs)) d) with (nth t (map2 sub xs (x :: xs)) d).
  rewrite (map2_nth sub xs (x :: xs) d d d) by (simpl; lia). reflexivity.
Qed.

Lemma fillna_nth (v : num) (xs : pd.Series) (d : num) (t : nat) :
  (t < length xs)%nat ->
  nth t (pd.fillna v xs) d = if np_isnan (nth t xs d) then v else nth t xs d.
Proof.
  intros Ht. unfold pd.fillna.
  rewrite (nth_indep _ d ((fun x => if np_isnan x then v else x) d))
    by (now rewrite length_map).
  apply (map_nth (fun x => if np_isnan x then v else x)).
Qed.

Lemma map_nth_in {X Y} (f : X -> Y) (xs : list X) (dx : X) (dy : Y) (t : nat) :
  (t < length xs)%nat -> nth t (map f xs) dy = f (nth t xs dx).
Proof.
  intros Ht. rewrite (nth_indep _ dy (f dx)) by (now rewrite length_map).
  apply map_nth.
Qed.

(** C3, as amended: for a portfolio with a non-empty return series whose value series
    and its period-to-period differences are numbers, the value compounds
    the returns from [1 + returns[0]], the cumulative P&L is the value minus
    one, and the P&L is zero at first and the change in value afterwards. *)
Theorem return_metrics_identities (self : portfolio.Portfolio)
    (rets value cpnl pnl : pd.Series) (d : num) :
  portfolio.portfolio_return_metrics self = Some (rets, value, cpnl, pnl) ->
  rets <> [] ->
  Forall (fun v => number v) value ->
  (forall t, (0 < t < length value)%nat ->
     number (nth t value d -! nth (t - 1) value d)) ->
  (length value = length rets /\ length cpnl = length rets /\
   length pnl = length rets) /\
  nth 0 value d = of_int 1 +! nth 0 rets d /\
  (forall t, (0 < t < length rets)%nat ->
     nth t value d = nth (t - 1) value d *! (of_int 1 +! nth t rets d)) /\
  (forall t, (t < length rets)%nat -> nth t cpnl d = nth t value d -! of_int 1) /\
  nth 0 pnl d = of_int 0 /\
  (forall t, (0 < t < length rets)%nat ->
     nth t pnl d = nth t value d -! nth (t - 1) value d).
Proof.
  intros Hm Hne Hval Hdiff.
  unfold portfolio.portfolio_return_metrics in Hm.
  destruct (pd.matmul (portfolio.market_returns self) (portfolio.weights self))
    as [rs|]; [|discriminate].
  simpl in Hm. injection Hm as -> <- <- <-.
  set (grow := map (fun r => of_int 1 +! r) rets) in *.
  set (value := pd.cumprod grow) in *.
  assert (Hlen : length value = length rets)
    by (unfold value, grow; now rewrite cumprod_length, length_map).
  assert (Hin : Forall (fun x => number x) grow) by (now apply cumprod_inputs).
  assert (Hpos : (0 < length rets)%nat) by (destruct rets; simpl; [contradiction|lia]).
  split; [|split; [|split; [|split; [|split]]]].
  - rewrite length_map. unfold pd.fillna. rewrite length_map, diff_length. auto.
  - unfold value. rewrite cumprod_head; auto.
    + unfold grow. now rewrite (map_nth_in _ _ d).
    + unfold grow. destruct rets; [contradiction|discriminate].
  - intros t Ht. unfold value.
    rewrite cumprod_steps by (auto; unfold grow; rewrite length_map; lia).
    unfold grow at 2. now rewrite (map_nth_in _ _ d) by lia.
  - intros t Ht. now rewrite (map_nth_in _ _ d) by lia.
  - rewrite fillna_nth by (rewrite diff_length; lia).
    destruct value as [|v vs]; [simpl in Hlen; lia|].
    simpl. now rewrite isnan_nan.
  - intros t Ht. rewrite fillna_nth by (rewrite diff_length; lia).
    rewrite diff_steps by lia. rewrite Hdiff by lia. reflexivity.
Qed.

End ReturnMetrics.

(** C3, refuted as stated: ticker A is quoted at zero on the second date.
    The portfolio returns are [-0.6], infinity and [0.0], the values
    [0.4], infinity and infinity; the last difference of values is
    infinity minus infinity, not a number, and [fillna(0)] stores [0.0] as
    the last P&L: [pnl[2] == portfolio_value[2] - portfolio_value[1]] does
    not hold. *)
Lemma pnl_is_not_the_change_in_value :
  exists rets value cpnl pnl,
    portfolio.portfolio_return_metrics EdgeSample.p_zero_price
      = Some (rets, value, cpnl, pnl) /\
    rets <> [] /\
    nth 2 pnl np_nan = of_int 0 /\
    np_isnan (nth 2 value np_nan -! nth 1 value np_nan) = true.
Proof.
  do 4 eexists. split; [vm_compute; reflexivity|].
  split; [discriminate|]. split; vm_compute; reflexivity.
Qed.

(** ** Finite portfolio values *)

Section FiniteValues.
Context `{L : ArithLaws} `{R : !RoundingLaws A}.

(** X3: when every portfolio value is finite (no overflow, no nan), the
    P&L has one entry per value, starts at zero, and from the second period
    on is the change in value, which is a number: [fillna(0)] replaces the
    leading nan of [diff] and nothing else. *)
Lemma finite_values_give_the_changes (self : portfolio.Portfolio)
    (rets value cpnl pnl : pd.Series) (d : num) :
  portfolio.portfolio_return_metrics self = Some (rets, value, cpnl, pnl) ->
  Forall (fun v => np_isfinite v = true) value ->
  length pnl = length value /\
  (value <> [] -> nth 0 pnl d = of_int 0) /\
  (forall t, (0 < t < length value)%nat ->
     np_isnan (nth t value d -! nth (t - 1) value d) = false /\
     nth t pnl d = nth t value d -! nth (t - 1) value d).
Proof.
  intros Hm Hv.
  unfold portfolio.portfolio_return_metrics in Hm.
  destruct (pd.matmul (portfolio.market_returns self) (portfolio.weights self))
    as [rs|]; [|discriminate].
  cbn [bind] in Hm. injection Hm as -> Hval <- <-.
  rewrite Hval.
  assert (Hnum : forall t, (0 < t < length value)%nat ->
            np_isnan (nth t value d -! nth (t - 1) value d) = false).
  { intros t Ht. rewrite Forall_forall in Hv.
    apply finite_difference; apply Hv; apply nth_In; lia. }
  split; [|split].
  - unfold pd.fillna. now rewrite length_map, diff_length.
  - intros Hne. destruct value as [|v vs]; [contradiction|].
    cbn. now rewrite isnan_nan.
  - intros t Ht. split; [apply Hnum; exact Ht|].
    rewrite fillna_nth by (rewrite diff_length; lia).
    rewrite diff_steps by lia. now rewrite Hnum.
Qed.

End FiniteValues.

Lemma finite_values_give_the_changes_witness :
  exists rets value cpnl pnl,
    portfolio.portfolio_return_metrics Sample.p_two_assets
      = Some (rets, value, cpnl, pnl) /\
    nth 2 pnl np_nan = nth 2 value np_nan -! nth 1 value np_nan.
Proof.
  do 4 eexists. split; [reflexivity|].
  refine (proj2 (proj2 (proj2 (@finite_values_give_the_changes Binary64.arith
            binary64_laws binary64_rounding Sample.p_two_assets _ _ _ _ np_nan
            eq_refl _)) 2%nat _)).
  - repeat (first [apply Forall_nil | apply Forall_cons; [vm_compute; reflexivity|]]).
  - cbn. lia.
Defined.

(** ** How many rows the market returns keep *)

(** C4, refuted as stated: with the first price of one ticker missing, a
    table of three rows leaves one row of returns, whether [pct_change]
    forward fills or not. *)
Lemma market_returns_two_rows_fewer :
  Z.of_nat (pd.len (portfolio.market_returns (Sample.p_late_listing true))) <>
    (Z.of_nat (pd.len (portfolio.market_data (Sample.p_late_listing true))) - 1)%Z /\
  Z.of_nat (pd.len (portfolio.market_returns (Sample.p_late_listing false))) <>
    (Z.of_nat (pd.len (portfolio.market_data (Sample.p_late_listing false))) - 1)%Z.
Proof. split; vm_compute; discriminate. Qed.

Section MarketReturns.
Context `{L : ArithLaws}.

Local Abbreviation change := (fun p q : num => p /! q -! of_int 1).
Local Abbreviation clean := (fun r : list num => existsb np_isnan r = false).
Local Abbreviation priced :=
  (fun r : list num => Forall (fun c => is_price c = true) r).

Lemma changes_clean (r r' : list num) :
  priced r -> priced r' -> clean (map2 change r r').
Proof.
  intros Hr. revert r'. induction Hr as [|c r Hc _ IH]; intros r' Hr'; simpl; auto.
  destruct Hr' as [|c' r' Hc' Hr']; simpl; auto.
  now rewrite IH, (change_of_prices c c' Hc Hc').
Qed.

Lemma first_change_nan (r : list num) (w : nat) :
  (1 <= w)%nat -> length r = w -> priced r ->
  existsb np_isnan (map2 change r (repeat np_nan w)) = true.
Proof.
  intros Hw Hl Hr. destruct w as [|w]; [lia|].
  destruct Hr as [|c r Hc _]; [discriminate|].
  simpl. now rewrite change_from_nan.
Qed.

Lemma ffill_from_priced (above : list num) (rs : list (list num)) :
  Forall (fun r => length r = length above /\ priced r) rs ->
  pd.ffill_from above rs = rs.
Proof.
  intros H. revert above H.
  induction rs as [|r rs IH]; intros above H; cbn [pd.ffill_from]; auto.
  inversion H as [|? ? [Hl Hr] Hrs]; subst.
  assert (Hrow : forall r above : list num,
            length r = length above -> priced r ->
            map2 (fun cur prev => if np_isnan cur then prev else cur) r above = r).
  { clear -L. induction r as [|c r IH]; intros [|a above] Hl Hr; simpl in *;
      try discriminate; auto.
    inversion Hr; subst. rewrite price_is_number by assumption.
    f_equal. apply IH; auto. }
  rewrite (Hrow r above Hl Hr). f_equal.
  apply IH. eapply Forall_impl; [|exact Hrs].
  intros r' [Hl' Hr']. split; [congruence|exact Hr'].
Qed.

Lemma later_changes_clean (rest : list (list num)) (r0 : list num) :
  priced r0 -> Forall (fun r => priced r) rest ->
  Forall (fun r => clean r) (map2 (map2 change) rest (removelast (r0 :: rest))) /\
  length (map2 (map2 change) rest (removelast (r0 :: rest))) = length rest.
Proof.
  intros H0 H. revert r0 H0. induction H as [|r1 rest H1 _ IH]; intros r0 H0.
  - simpl. split; [constructor|reflexivity].
  - change (removelast (r0 :: r1 :: rest)) with (r0 :: removelast (r1 :: rest)).
    cbn [map2]. destruct (IH r1 H1) as [Hc Hl]. split.
    + constructor; [apply changes_clean; assumption|exact Hc].
    + cbn [length]. f_equal. exact Hl.
Qed.

Lemma filter_all {X} (f : X -> bool) (xs : list X) :
  Forall (fun x => f x = true) xs -> filter f xs = xs.
Proof.
  induction 1 as [|x xs Hx _ IH]; simpl; auto. now rewrite Hx, IH.
Qed.

(** C4, as amended: when the market data has at least one row and one
    column and every price is present (a finite, positive number), the
    market returns have exactly one row fewer than the market data. *)
Theorem market_returns_one_row_fewer (yf_download : portfolio.Provider)
    (pad : bool) (assets : list portfolio.TickerWeight)
    (start_date end_date : date) (rebalancing_frequency : string) :
  let self := portfolio.init yf_download pad assets start_date end_date
                rebalancing_frequency in
  let data := portfolio.market_data self in
  (1 <= pd.width data)%nat ->
  (1 <= pd.len data)%nat ->
  Forall (fun r => length r = pd.width data /\
                   Forall (fun c => is_price c = true) r) (pd.rows data) ->
  Z.of_nat (pd.len (portfolio.market_returns self)) =
  (Z.of_nat (pd.len data) - 1)%Z.
Proof.
  intros self data Hw Hn Hrows.
  change (portfolio.market_returns self)
    with (pd.dropna (pd.pct_change pad data)).
  unfold pd.len, pd.dropna, pd.pct_change. cbn [pd.rows].
  assert (Hdata : (if pad then pd.ffill (pd.width data) (pd.rows data)
                   else pd.rows data) = pd.rows data).
  { destruct pad; auto. unfold pd.ffill. apply ffill_from_priced.
    eapply Forall_impl; [|exact Hrows]. intros r [Hl Hr].
    now rewrite repeat_length. }
  rewrite Hdata. unfold pd.len in Hn.
  destruct (pd.rows data) as [|r0 rest] eqn:Erows; [simpl in Hn; lia|].
  inversion Hrows as [|? ? [Hl0 Hp0] Hrest]; subst.
  unfold pd.shift. cbn [map2 filter].
  rewrite (first_change_nan Hw Hl0 Hp0). cbn [negb].
  destruct (later_changes_clean (rest := rest) Hp0) as [Hc Hl].
  { eapply Forall_impl; [|exact Hrest]. intros r [_ Hr]. exact Hr. }
  rewrite filter_all.
  - rewrite Hl. cbn [length]. lia.
  - eapply Forall_impl; [|exact Hc]. intros r Hr. cbv beta in Hr. now rewrite Hr.
Qed.

End MarketReturns.

(** ** Conditional value at risk *)

Section TailMean.
Context `{R : RoundingLaws}.

Lemma notna_numbers (xs : pd.Series) :
  Forall (fun x => np_isnan x = false) xs -> pd.notna xs = xs.
Proof.
  induction 1 as [|x xs Hx _ IH]; cbn [pd.notna filter]; [reflexivity|].
  rewrite Hx. cbn [negb]. f_equal. exact IH.
Qed.

Lemma tail_numbers (xs : pd.Series) (v : num) :
  Forall (fun x => np_isnan x = false) (filter (fun r => r <=! v) xs).
Proof.
  apply Forall_forall. intros x Hx. apply filter_In in Hx.
  exact (leb_number _ _ (proj2 Hx)).
Qed.

Lemma mean_numbers (xs : pd.Series) :
  Forall (fun x => np_isnan x = false) xs ->
  pd.mean xs = match xs with
               | [] => np_nan
               | _ => fold_left add xs (of_int 0) /! of_int (Z.of_nat (length xs))
               end.
Proof.
  intros H. unfold pd.mean. rewrite (notna_numbers H). destruct xs; reflexivity.
Qed.

Lemma insert_repeat (c : num) (n : nat) :
  pd.insert c (repeat c n) = c :: repeat c n.
Proof.
  induction n as [|n IH]; cbn [repeat pd.insert]; [reflexivity|].
  rewrite IH. destruct (c <=! c); reflexivity.
Qed.

Lemma sort_repeat (c : num) (n : nat) : pd.sort (repeat c n) = repeat c n.
Proof.
  induction n as [|n IH]; cbn [repeat pd.sort fold_right]; [reflexivity|].
  unfold pd.sort in IH. rewrite IH. apply insert_repeat.
Qed.

Lemma nth_repeat_same {X} (x : X) (n i : nat) : nth i (repeat x n) x = x.
Proof. revert i. induction n; intros [|i]; simpl; auto. Qed.

Lemma filter_repeat (f : num -> bool) (c : num) (n : nat) :
  f c = true -> filter f (repeat c n) = repeat c n.
Proof.
  intros H. induction n as [|n IH]; cbn [repeat filter]; [reflexivity|].
  rewrite H. f_equal. exact IH.
Qed.

(** The quantile of [n + 1] copies of a number [c] interpolates between
    [c] and [c]. *)
Lemma quantile_repeat (c q : num) (n : nat) :
  np_isnan c = false ->
  (of_int 0 <=! q) && (q <=! of_int 1) = true ->
  exists k j,
    pd.quantile (repeat c (S n)) q =
    Some (c +! (c -! c) *! (q *! of_int k -! of_int j)).
Proof.
  intros Hc Hq. unfold pd.quantile. rewrite Hq.
  rewrite notna_numbers by (apply Forall_forall; intros x Hx;
                            apply repeat_spec in Hx; now subst).
  rewrite sort_repeat. cbn [repeat].
  change (c :: repeat c n) with (repeat c (S n)).
  rewrite !nth_repeat_same. do 2 eexists. reflexivity.
Qed.


End TailMean.



(** ** The sensitivity sweep *)

Section Collecting.
Context `{A : Arith}.

Lemma cumprod_nonempty (xs : pd.Series) : xs <> [] -> pd.cumprod xs <> [].
Proof. destruct xs; simpl; [contradiction|discriminate]. Qed.

Lemma iloc_last_defined (xs : pd.Series) :
  xs <> [] -> exists x, pd.iloc_last xs = Some x.
Proof. destruct xs; simpl; [contradiction|eauto]. Qed.

(** A portfolio whose returns table is as wide as its weight vector and has
    a row, at a level in [0, 1]: both metric functions return, and the value
    series has a last entry. *)
Lemma metrics_defined (self : portfolio.Portfolio) (rf alpha : num) :
  pd.width (portfolio.market_returns self) = length (portfolio.weights self) ->
  (1 <= pd.len (portfolio.market_returns self))%nat ->
  (of_int 0 <=! alpha) && (alpha <=! of_int 1) = true ->
  exists rets value cpnl pnl std beta sharpe cvar sortino net,
    portfolio.portfolio_return_metrics self = Some (rets, value, cpnl, pnl) /\
    portfolio.portfolio_volatility_metrics self rf alpha =
      Some (std, beta, sharpe, cvar, sortino) /\
    pd.iloc_last value = Some net.
Proof.
  intros Hw Hn Ha.
  assert (Hm : exists rets, portfolio.portfolio_return_metrics self =
      Some (rets, pd.cumprod (map (fun r => of_int 1 +! r) rets),
            map (fun v => v -! of_int 1) (pd.cumprod (map (fun r => of_int 1 +! r) rets)),
            pd.fillna (of_int 0) (pd.diff (pd.cumprod (map (fun r => of_int 1 +! r) rets))))
      /\ rets <> []).
  { unfold portfolio.portfolio_return_metrics, pd.matmul.
    apply Nat.eqb_eq in Hw. rewrite Hw. cbn [bind]. eexists. split; [reflexivity|].
    unfold pd.len in Hn. destruct (pd.rows (portfolio.market_returns self));
      simpl in *; [lia|discriminate]. }
  destruct Hm as (rets & Hm & Hne).
  destruct (quantile_returns rets alpha Ha) as [var Hq].
  destruct (@iloc_last_defined (pd.cumprod (map (fun r => of_int 1 +! r) rets)))
    as [net Hnet].
  { apply cumprod_nonempty. destruct rets; [contradiction|discriminate]. }
  do 10 eexists. split; [exact Hm|]. split; [|exact Hnet].
  apply (volatility_metrics_lines self rf alpha Hm Hq).
Qed.

Local Abbreviation Collected := sensitivity_analysis.Collected.

Lemma collect_appends (todo : list portfolio.Portfolio) (acc : Collected) :
  Forall (fun p =>
    pd.width (portfolio.market_returns p) = length (portfolio.weights p) /\
    (1 <= pd.len (portfolio.market_returns p))%nat) todo ->
  (of_int 0 <=! lit 5 100) && (lit 5 100 <=! of_int 1) = true ->
  exists sharpes cvars sortinos values nets,
    sensitivity_analysis.collect todo acc =
      Some {| sensitivity_analysis.portfolios := sensitivity_analysis.portfolios acc;
              sensitivity_analysis.sharpe_ratios :=
                sensitivity_analysis.sharpe_ratios acc ++ sharpes;
              sensitivity_analysis.cvars := sensitivity_analysis.cvars acc ++ cvars;
              sensitivity_analysis.sortino_ratios :=
                sensitivity_analysis.sortino_ratios acc ++ sortinos;
              sensitivity_analysis.portfolio_values :=
                sensitivity_analysis.portfolio_values acc ++ values;
              sensitivity_analysis.net_returns :=
                sensitivity_analysis.net_returns acc ++ nets |} /\
    (length sharpes = length todo /\ length cvars = length todo /\
     length sortinos = length todo /\ length values = length todo /\
     length nets = length todo) /\
    forall i p, nth_error todo i = Some p ->
      collected_at sharpes cvars sortinos values nets i p.
Proof.
  intros Hall Ha. revert acc.
  induction Hall as [|p todo [Hw Hn] _ IH]; intros acc.
  - exists [], [], [], [], []. cbn [sensitivity_analysis.collect length].
    rewrite !app_nil_r. destruct acc. repeat split.
    intros [|i] q Hq; discriminate Hq.
  - destruct (metrics_defined p (of_int 0) (lit 5 100) Hw Hn Ha)
      as (rets & value & cpnl & pnl & std & beta & sharpe & cvar & sortino & net
          & Hm & Hv & Hlast).
    cbn [sensitivity_analysis.collect]. rewrite Hm. cbn [bind].
    rewrite Hv. cbn [bind]. rewrite Hlast. cbn [bind].
    match goal with
    | |- context [sensitivity_analysis.collect todo ?acc'] =>
      destruct (IH acc') as (shs & cvs & sos & vals & nets & Hc & Hlen & Hat)
    end.
    exists (sharpe :: shs), (cvar :: cvs), (sortino :: sos), (value :: vals),
           (net :: nets).
    split; [|split].
    + rewrite Hc. cbn [sensitivity_analysis.portfolios
        sensitivity_analysis.sharpe_ratios sensitivity_analysis.cvars
        sensitivity_analysis.sortino_ratios sensitivity_analysis.portfolio_values
        sensitivity_analysis.net_returns].
      now rewrite <- !app_assoc.
    + cbn [length]. intuition congruence.
    + intros [|i] q Hq.
      * injection Hq as <-. unfold collected_at. cbn [nth_error].
        exists rets, value, cpnl, pnl, std, beta, sharpe, cvar, sortino, net.
        repeat split; assumption.
      * cbn [nth_error] in Hq. destruct (Hat i q Hq)
          as (r & v & cp & pn & s & b & sh & cv & so & n & G).
        exists r, v, cp, pn, s, b, sh, cv, so, n. exact G.
Qed.

End Collecting.

(** ** What construction guarantees, whatever the provider serves *)

Lemma map2_length_le {X Y Z} (f : X -> Y -> Z) (xs : list X) (ys : list Y) :
  (length (map2 f xs ys) <= length xs)%nat.
Proof.
  revert ys. induction xs as [|x xs IH]; intros [|y ys]; simpl; try lia.
  specialize (IH ys). lia.
Qed.

Section Construction.
Context `{L : ArithLaws}.

Local Abbreviation change := (fun p q : num => p /! q -! of_int 1).

Lemma ffill_from_length (above : list num) (rs : list (list num)) :
  length (pd.ffill_from above rs) = length rs.
Proof.
  revert above. induction rs as [|r rs IH]; intros above; simpl; auto.
Qed.

Lemma dropna_clean (df : pd.DataFrame) :
  Forall (fun r => Forall (fun c => np_isnan c = false) r) (pd.rows (pd.dropna df)).
Proof.
  apply Forall_forall. intros r Hr. unfold pd.dropna in Hr. cbn [pd.rows] in Hr.
  apply filter_In in Hr. destruct Hr as [_ Hr].
  apply negb_true_iff in Hr. apply Forall_forall. intros c Hc.
  destruct (np_isnan c) eqn:E; [|reflexivity].
  assert (existsb np_isnan r = true) by (apply existsb_exists; eauto).
  congruence.
Qed.

(** X4: the market returns of a constructed portfolio carry the column
    labels of the market data, in the same order, and hold no nan cell,
    whatever table the provider has served. *)
Theorem market_returns_are_clean (yf_download : portfolio.Provider) (pad : bool)
    (assets : list portfolio.TickerWeight)
    (start_date end_date : date) (rebalancing_frequency : string) :
  let self := portfolio.init yf_download pad assets start_date end_date
                rebalancing_frequency in
  pd.columns (portfolio.market_returns self) =
    pd.columns (portfolio.market_data self) /\
  Forall (fun r => Forall (fun c => np_isnan c = false) r)
         (pd.rows (portfolio.market_returns self)).
Proof.
  intros self. split; [reflexivity|].
  change (portfolio.market_returns self)
    with (pd.dropna (pd.pct_change pad (portfolio.market_data self))).
  apply dropna_clean.
Qed.

Lemma first_change_has_nan (r : list num) (w : nat) :
  r <> [] -> (1 <= w)%nat ->
  existsb np_isnan (map2 change r (repeat np_nan w)) = true.
Proof.
  intros Hr Hw. destruct r as [|c r]; [contradiction|].
  destruct w as [|w]; [lia|]. simpl. now rewrite change_from_nan.
Qed.

(** X5: a table of prices with at least one column loses at least its
    first row: the market returns have fewer rows than the market data, and
    a single row of prices leaves no returns at all. *)
Theorem market_returns_lose_the_first_row (yf_download : portfolio.Provider)
    (pad : bool) (assets : list portfolio.TickerWeight)
    (start_date end_date : date) (rebalancing_frequency : string) :
  let self := portfolio.init yf_download pad assets start_date end_date
                rebalancing_frequency in
  let data := portfolio.market_data self in
  (1 <= pd.width data)%nat ->
  (1 <= pd.len data)%nat ->
  Forall (fun r => length r = pd.width data) (pd.rows data) ->
  (pd.len (portfolio.market_returns self) < pd.len data)%nat /\
  (pd.len data = 1%nat -> pd.rows (portfolio.market_returns self) = []).
Proof.
  intros self data Hw Hn Hrect.
  assert (Hlt : (pd.len (portfolio.market_returns self) < pd.len data)%nat).
  { change (portfolio.market_returns self)
      with (pd.dropna (pd.pct_change pad data)).
    unfold pd.len, pd.dropna, pd.pct_change in *. cbn [pd.rows].
    set (filled := if pad then pd.ffill (pd.width data) (pd.rows data)
                   else pd.rows data).
    assert (Hf : exists r0 rest, filled = r0 :: rest /\ r0 <> [] /\
                   length filled = length (pd.rows data)).
    { unfold filled. destruct (pd.rows data) as [|r0 rest]; [simpl in Hn; lia|].
      inversion Hrect as [|? ? Hl0 _]; subst.
      destruct pad.
      - unfold pd.ffill. cbn [pd.ffill_from]. do 2 eexists.
        split; [reflexivity|]. split.
        + destruct r0 as [|c r0]; [simpl in Hl0; lia|].
          destruct (pd.width data); [lia|]. discriminate.
        + cbn [length]. now rewrite ffill_from_length.
      - do 2 eexists. split; [reflexivity|]. split; [|reflexivity].
        destruct r0; [simpl in Hl0; lia|discriminate]. }
    destruct Hf as (r0 & rest & Hf & Hr0 & Hlen). rewrite <- Hlen, Hf.
    unfold pd.shift. cbn [map2 filter].
    rewrite (first_change_has_nan Hr0 Hw). cbn [negb length].
    apply Nat.lt_succ_r.
    etransitivity; [apply filter_length_le|apply map2_length_le]. }
  split; [exact Hlt|]. intros H1. unfold pd.len in *.
  destruct (pd.rows (portfolio.market_returns self)); [reflexivity|simpl in Hlt; lia].
Qed.



Lemma nth_removelast {X} (xs : list X) (t : nat) (d : X) :
  (S t < length xs)%nat -> nth t (removelast xs) d = nth t xs d.
Proof.
  revert t. induction xs as [|x xs IH]; intros t Ht; [simpl in Ht; lia|].
  destruct xs as [|y xs]; [simpl in Ht; lia|].
  change (removelast (x :: y :: xs)) with (x :: removelast (y :: xs)).
  destruct t as [|t]; [reflexivity|]. cbn [nth]. apply IH. simpl in *. lia.
Qed.

(** X6: when no price is missing, the returns are the period-over-period
    changes of the prices, cell by cell: row [t] of the market returns holds
    [price(t+1) / price(t) - 1] for every ticker. This holds with and
    without the forward fill of [pct_change], so the result does not depend
    on the pandas version. *)
Theorem market_returns_are_period_changes (yf_download : portfolio.Provider)
    (pad : bool) (assets : list portfolio.TickerWeight)
    (start_date end_date : date) (rebalancing_frequency : string) (d : num) :
  let self := portfolio.init yf_download pad assets start_date end_date
                rebalancing_frequency in
  let data := portfolio.market_data self in
  Forall (fun r => length r = pd.width data /\
                   Forall (fun c => is_price c = true) r) (pd.rows data) ->
  forall t i, (S t < pd.len data)%nat -> (i < pd.width data)%nat ->
    nth i (nth t (pd.rows (portfolio.market_returns self)) []) d =
    nth i (nth (S t) (pd.rows data) []) d /! nth i (nth t (pd.rows data) []) d
      -! of_int 1.
Proof.
  intros self data Hrows t i Ht Hi.
  change (portfolio.market_returns self)
    with (pd.dropna (pd.pct_change pad data)).
  unfold pd.len, pd.dropna, pd.pct_change in *. cbn [pd.rows].
  assert (Hdata : (if pad then pd.ffill (pd.width data) (pd.rows data)
                   else pd.rows data) = pd.rows data).
  { destruct pad; auto. unfold pd.ffill. apply ffill_from_priced.
    eapply Forall_impl; [|exact Hrows]. intros r [Hl Hr].
    now rewrite repeat_length. }
  rewrite Hdata.
  destruct (pd.rows data) as [|r0 rest] eqn:Erows; [simpl in Ht; lia|].
  assert (Hall : Forall (fun r => length r = pd.width data) (r0 :: rest)).
  { eapply Forall_impl; [|exact Hrows]. now intros r [Hl _]. }
  inversion Hrows as [|? ? [Hl0 Hp0] Hrest]; subst.
  unfold pd.shift. cbn [map2 filter].
  rewrite (@first_change_nan _ _ r0 (pd.width data)) by (assumption || lia).
  cbn [negb].
  destruct (later_changes_clean (rest := rest) Hp0) as [Hc Hl].
  { eapply Forall_impl; [|exact Hrest]. intros r [_ Hr]. exact Hr. }
  rewrite filter_all
    by (eapply Forall_impl; [|exact Hc]; intros r Hr; cbv beta in Hr; now rewrite Hr).
  cbn [length] in Ht. cbn [nth].
  assert (Hrl : length (removelast (r0 :: rest)) = length rest).
  { rewrite (removelast_firstn_len (r0 :: rest)), length_firstn. cbn [length]. lia. }
  rewrite (map2_nth (map2 change) rest (removelast (r0 :: rest)) [] [] [])
    by lia.
  rewrite nth_removelast by (cbn [length]; lia).
  assert (Hnth : forall k, (k < length (r0 :: rest))%nat ->
            length (nth k (r0 :: rest) []) = pd.width data).
  { intros k Hk. eapply (proj1 (Forall_nth _ _) Hall). exact Hk. }
  change (match t with 0%nat => r0 | S m => nth m rest [] end)
    with (nth t (r0 :: rest) []).
  apply (map2_nth change (nth t rest []) (nth t (r0 :: rest) []) d d d).
  - change (nth t rest []) with (nth (S t) (r0 :: rest) []).
    rewrite (Hnth (S t)) by (cbn [length]; lia). exact Hi.
  - rewrite (Hnth t) by (cbn [length]; lia). exact Hi.
Qed.

End Construction.

(** ** When the three methods raise *)

Section Raising.
Context `{A : Arith}.

(** X7: the return metrics raise exactly when the returns table is not as
    wide as the weight vector; the volatility metrics raise exactly then, or
    when the level [alpha] lies outside [0, 1]. When the return metrics do
    return, each of the four series has one entry per row of the returns
    table. *)
Theorem metrics_raise_exactly_on_shape_or_level
    (self : portfolio.Portfolio) (rf alpha : num) :
  (portfolio.portfolio_return_metrics self = None <->
   pd.width (portfolio.market_returns self) <> length (portfolio.weights self)) /\
  (portfolio.portfolio_volatility_metrics self rf alpha = None <->
   pd.width (portfolio.market_returns self) <> length (portfolio.weights self) \/
   (of_int 0 <=! alpha) && (alpha <=! of_int 1) = false) /\
  (forall rets value cpnl pnl,
     portfolio.portfolio_return_metrics self = Some (rets, value, cpnl, pnl) ->
     length rets = pd.len (portfolio.market_returns self) /\
     length value = length rets /\ length cpnl = length rets /\
     length pnl = length rets).
Proof.
  unfold portfolio.portfolio_volatility_metrics, portfolio.portfolio_return_metrics,
    pd.matmul.
  destruct (Nat.eqb_spec (pd.width (portfolio.market_returns self))
                         (length (portfolio.weights self))) as [E|E]; cbn [bind].
  - split; [split; [discriminate|contradiction]|]. split.
    + unfold pd.quantile.
      destruct ((of_int 0 <=! alpha) && (alpha <=! of_int 1)).
      * split; [|intros [H|H]; [contradiction|discriminate]].
        destruct (pd.sort _); discriminate.
      * split; auto.
    + intros rets value cpnl pnl H.
      assert (Hr : map (fun r => pd.dot r (portfolio.weights self))
                       (pd.rows (portfolio.market_returns self)) = rets) by congruence.
      assert (Hv : pd.cumprod (map (fun r => of_int 1 +! r) rets) = value) by congruence.
      assert (Hc : map (fun v => v -! of_int 1) value = cpnl) by congruence.
      assert (Hp : pd.fillna (of_int 0) (pd.diff value) = pnl) by congruence.
      assert (Hlv : length value = length rets)
        by (rewrite <- Hv; now rewrite cumprod_length, length_map).
      repeat split.
      * rewrite <- Hr. apply length_map.
      * exact Hlv.
      * rewrite <- Hc, length_map. exact Hlv.
      * rewrite <- Hp. unfold pd.fillna. rewrite length_map, diff_length. exact Hlv.
  - split; [split; auto|]. split; [split; auto|].
    intros rets value cpnl pnl H. discriminate H.
Qed.

(** X8: the volatility decomposition raises exactly when the returns table
    is not as wide as the weight vector and there is more than one weight,
    or none: a single weight is broadcast over every column. *)
Theorem decomposition_raises_unless_broadcast (self : portfolio.Portfolio) :
  portfolio.asset_volatility_decomposition self = None <->
  pd.width (portfolio.market_returns self) <> length (portfolio.weights self) /\
  length (portfolio.weights self) <> 1%nat.
Proof.
  unfold portfolio.asset_volatility_decomposition, pd.mul_ndarray.
  rewrite df_std_length.
  destruct (Nat.eqb_spec (pd.width (portfolio.market_returns self))
                         (length (portfolio.weights self))) as [E|E].
  - split; [discriminate|]. intros [H _]. contradiction.
  - destruct (portfolio.weights self) as [|w0 [|w1 ws]]; cbn [length].
    + split; auto.
    + split; [discriminate|]. intros [_ H]. contradiction.
    + split; auto.
Qed.

End Raising.

(** ** The special values of the arithmetic *)

#[export] Instance binary64_special : SpecialLaws Binary64.arith.
Proof.
  split; cbn [np_nan mul div add np_isfinite of_int Binary64.arith].
  - intros x. apply Prim2SF_inj. rewrite FloatAxioms.mul_spec.
    change (Prim2SF PrimFloat.nan) with S754_nan. reflexivity.
  - intros x. apply Prim2SF_inj. rewrite FloatAxioms.div_spec.
    change (Prim2SF PrimFloat.nan) with S754_nan.
    destruct (Prim2SF x); reflexivity.
  - intros x. unfold Binary64.isfinite. rewrite FloatAxioms.div_spec.
    change (Prim2SF (Binary64.of_int 0)) with (S754_zero false).
    destruct (Prim2SF x); reflexivity.
  - intros x y. unfold Binary64.isfinite. rewrite FloatAxioms.mul_spec.
    destruct (Prim2SF x), (Prim2SF y); try discriminate; reflexivity.
  - intros x y. unfold Binary64.isfinite. rewrite FloatAxioms.add_spec.
    destruct (Prim2SF x) as [[]|[]| |], (Prim2SF y) as [[]|[]| |];
      try discriminate; reflexivity.
  - intros x y. unfold Binary64.isfinite. rewrite FloatAxioms.add_spec.
    destruct (Prim2SF x) as [[]|[]| |], (Prim2SF y) as [[]|[]| |];
      try discriminate; reflexivity.
Qed.

(** ** Fewer than two periods of returns *)

Section ShortHistory.
Context `{L : ArithLaws} `{N : !SpecialLaws A}.

Lemma var_short (xs : pd.Series) : (length xs <= 1)%nat -> pd.var xs = np_nan.
Proof.
  intros H. unfold pd.var.
  assert (Hn : (length (pd.notna xs) <= 1)%nat).
  { unfold pd.notna.
    pose proof (filter_length_le (fun x => negb (np_isnan x)) xs). lia. }
  apply Nat.leb_le in Hn. now rewrite Hn.
Qed.

Lemma nan_products (f : nat -> num) (ws : list num) (k : nat) :
  (forall i, f i = np_nan) ->
  map2 mul (map f (seq k (length ws))) ws = repeat np_nan (length ws).
Proof.
  intros Hf. revert k. induction ws as [|w ws IH]; intros k; simpl; auto.
  now rewrite Hf, nan_mul, IH.
Qed.

(** X9: with fewer than two rows of returns there is nothing to measure a
    deviation on: the annualized deviation, the beta, the Sharpe ratio and
    the Sortino ratio are nan, and so is every asset's volatility
    contribution; with no row at all the CVaR is nan too. Nothing raises. *)
Theorem short_history_gives_nan (self : portfolio.Portfolio) (rf alpha : num) :
  pd.width (portfolio.market_returns self) = length (portfolio.weights self) ->
  (pd.len (portfolio.market_returns self) <= 1)%nat ->
  (of_int 0 <=! alpha) && (alpha <=! of_int 1) = true ->
  (exists cvar,
     portfolio.portfolio_volatility_metrics self rf alpha =
       Some (np_nan, np_nan, np_nan, cvar, np_nan) /\
     (pd.len (portfolio.market_returns self) = 0%nat -> cvar = np_nan)) /\
  portfolio.asset_volatility_decomposition self =
    Some (repeat np_nan (length (portfolio.weights self))).
Proof.
  intros Hw Hn Ha. split.
  - set (rets := map (fun r => pd.dot r (portfolio.weights self))
                     (pd.rows (portfolio.market_returns self))).
    assert (Hm : exists value cpnl pnl,
              portfolio.portfolio_return_metrics self = Some (rets, value, cpnl, pnl)).
    { unfold portfolio.portfolio_return_metrics, pd.matmul.
      apply Nat.eqb_eq in Hw. rewrite Hw. cbn [bind]. eauto. }
    destruct Hm as (value & cpnl & pnl & Hm).
    assert (Hlen : length rets = pd.len (portfolio.market_returns self))
      by (unfold rets; now rewrite length_map).
    destruct (quantile_returns rets alpha Ha) as [var Hq].
    rewrite (volatility_metrics_lines self rf alpha Hm Hq).
    assert (Hstd : pd.std rets = np_nan) by (apply std_short; lia).
    assert (Hbench : pd.var (pd.df_mean_rows (portfolio.market_returns self)) = np_nan).
    { apply var_short. unfold pd.df_mean_rows. now rewrite length_map. }
    assert (Hdown : match filter (fun r => r <! rf) rets with
                    | [] => np_nan
                    | _ => pd.std (filter (fun r => r <! rf) rets)
                    end = np_nan).
    { destruct (filter (fun r => r <! rf) rets) eqn:E; [reflexivity|].
      rewrite <- E. apply std_short.
      pose proof (filter_length_le (fun r => r <! rf) rets). lia. }
    rewrite Hdown, Hstd, Hbench, isnan_nan, !nan_mul, !div_nan, nan_mul.
    cbn [negb]. eexists. split; [reflexivity|].
    intros H0. rewrite H0 in Hlen. destruct rets; [|discriminate].
    unfold pd.quantile in Hq. rewrite Ha in Hq. cbn in Hq.
    reflexivity.
  - unfold portfolio.asset_volatility_decomposition.
    rewrite mul_ndarray_same_length by (now rewrite df_std_length).
    unfold pd.df_std. rewrite Hw. f_equal. apply nan_products.
    intros i. apply std_short. unfold pd.column. now rewrite length_map.
Qed.

End ShortHistory.

(** ** Raw weights that sum to zero *)

Section ZeroSum.
Context `{N : SpecialLaws}.

Local Abbreviation special := (fun x : num => np_isfinite x = false).

Lemma sum_special_from (xs : list num) (acc : num) :
  special acc -> special (fold_left add xs acc).
Proof.
  revert acc. induction xs as [|x xs IH]; intros acc Ha; simpl; auto.
  apply IH. now apply add_special_l.
Qed.

Lemma dot_special (r w : list num) :
  r <> [] -> w <> [] -> Forall special w -> special (pd.dot r w).
Proof.
  intros Hr Hw Hs. destruct r as [|x r]; [contradiction|].
  destruct Hs as [|y w Hy _]; [contradiction|].
  unfold pd.dot, pd.np_sum. cbn [map2 fold_left].
  apply sum_special_from, add_special_r, mul_special. exact Hy.
Qed.

(** X10: raw weights that sum to zero do not make the constructor raise:
    the division by zero leaves only infinities and nan as stored weights,
    and then every portfolio return is an infinity or nan as well. *)
Theorem zero_sum_weights_are_not_numbers (yf_download : portfolio.Provider)
    (pad : bool) (assets : list portfolio.TickerWeight)
    (start_date end_date : date) (rebalancing_frequency : string) :
  let self := portfolio.init yf_download pad assets start_date end_date
                rebalancing_frequency in
  let returns := portfolio.market_returns self in
  pd.np_sum (map (@portfolio.weight A) assets) = of_int 0 ->
  Forall (fun w => np_isfinite w = false) (portfolio.weights self) /\
  (assets <> [] ->
   pd.width returns = length assets ->
   Forall (fun r => length r = pd.width returns) (pd.rows returns) ->
   exists rets value cpnl pnl,
     portfolio.portfolio_return_metrics self = Some (rets, value, cpnl, pnl) /\
     length rets = pd.len returns /\
     Forall (fun r => np_isfinite r = false) rets).
Proof.
  intros self returns Hsum.
  assert (Hws : Forall special (portfolio.weights self)).
  { change (portfolio.weights self)
      with (map (fun w => w /! pd.np_sum (map (@portfolio.weight A) assets))
                (map (@portfolio.weight A) assets)).
    rewrite Hsum. apply Forall_map, Forall_forall. intros w _. apply div_zero. }
  split; [exact Hws|]. intros Hne Hw Hrect.
  assert (Hlen : length (portfolio.weights self) = length assets).
  { change (portfolio.weights self)
      with (map (fun w => w /! pd.np_sum (map (@portfolio.weight A) assets))
                (map (@portfolio.weight A) assets)).
    now rewrite !length_map. }
  unfold portfolio.portfolio_return_metrics, pd.matmul. fold returns.
  rewrite Hlen. apply Nat.eqb_eq in Hw as Hwb. rewrite Hwb. cbn [bind].
  do 4 eexists. split; [reflexivity|]. split; [apply length_map|].
  apply Forall_map. eapply Forall_impl; [|exact Hrect].
  intros r Hr. apply dot_special.
  - intros ->. destruct assets; [contradiction|]. simpl in *. lia.
  - intros E. rewrite E in Hlen. destruct assets; [contradiction|discriminate].
  - exact Hws.
Qed.

End ZeroSum.

(** ** When the sensitivity sweep raises *)

Section SweepRaising.
Context `{A : Arith}.

Lemma collect_raises_first (p : portfolio.Portfolio) (todo : list portfolio.Portfolio)
    (acc : sensitivity_analysis.Collected) :
  pd.width (portfolio.market_returns p) <> length (portfolio.weights p) \/
  pd.len (portfolio.market_returns p) = 0%nat ->
  sensitivity_analysis.collect (p :: todo) acc = None.
Proof.
  intros H. cbn [sensitivity_analysis.collect].
  unfold portfolio.portfolio_volatility_metrics, portfolio.portfolio_return_metrics,
    pd.matmul.
  destruct (Nat.eqb_spec (pd.width (portfolio.market_returns p))
                         (length (portfolio.weights p))) as [E|E]; [|reflexivity].
  destruct H as [H|H]; [contradiction|].
  unfold pd.len in H. destruct (pd.rows (portfolio.market_returns p)); [|discriminate].
  cbn [bind map pd.cumprod].
  destruct (pd.quantile [] (lit 5 100)); reflexivity.
Qed.

End SweepRaising.

Lemma binary64_grid :
  exists g0 g1 g2 g3 g4,
    sensitivity_analysis.sweep_grid (A := Binary64.arith) = [g0; g1; g2; g3; g4].
Proof. do 5 eexists. vm_compute. reflexivity. Qed.

(** X11: on binary64, the sweep raises exactly when one of the two dates
    does not parse, or the returns table for the three tickers has not three
    columns, or it has no row (the last value of an empty value series is
    asked for). *)
Theorem sweep_raises_exactly_when (yf_download : portfolio.Provider (A := Binary64.arith))
    (pad : bool) (fromisoformat : string -> option date)
    (start_date_str end_date_str : string) :
  sensitivity_analysis.plot_sensitivity_analysis yf_download pad fromisoformat
    start_date_str end_date_str = None <->
  match fromisoformat start_date_str, fromisoformat end_date_str with
  | Some start_date, Some end_date =>
    let returns :=
      portfolio.calculate_market_returns pad
        (yf_download sensitivity_analysis.sweep_tickers start_date end_date
           "1mo"%string) in
    pd.width returns <> 3%nat \/ pd.len returns = 0%nat
  | _, _ => True
  end.
Proof.
  unfold sensitivity_analysis.plot_sensitivity_analysis.
  destruct (fromisoformat start_date_str) as [start_date|]; [|split; auto].
  destruct (fromisoformat end_date_str) as [end_date|]; [|split; auto].
  cbn [bind].
  set (ps := sensitivity_analysis.build_portfolios yf_download pad start_date end_date).
  set (returns := portfolio.calculate_market_returns pad
         (yf_download sensitivity_analysis.sweep_tickers start_date end_date "1mo"%string)).
  cbv zeta.
  assert (Hps : Forall (fun p => portfolio.market_returns p = returns /\
                                 length (portfolio.weights p) = 3%nat) ps).
  { unfold ps, sensitivity_analysis.build_portfolios.
    apply Forall_map, Forall_forall. intros g _. split; reflexivity. }
  split.
  - intros Hnone.
    destruct (Nat.eq_dec (pd.width returns) 3) as [Hw|Hw]; [|now left].
    destruct (Nat.eq_dec (pd.len returns) 0) as [Hn|Hn]; [now right|].
    exfalso.
    edestruct (@collect_appends Binary64.arith ps) as (? & ? & ? & ? & ? & Hc & _);
      [ | vm_compute; reflexivity | rewrite Hc in Hnone; discriminate Hnone].
    eapply Forall_impl; [|exact Hps]. intros p [-> ->]. split; [exact Hw|lia].
  - intros H.
    destruct binary64_grid as (g0 & g1 & g2 & g3 & g4 & Hg).
    clear Hps. unfold ps, sensitivity_analysis.build_portfolios.
    rewrite Hg. cbn [map].
    apply collect_raises_first. exact H.
Qed.

(** ** The sweep on binary64 *)

Section SweepBinary64.
Import Binary64.

Lemma binary64_grid_values :
  sensitivity_analysis.sweep_grid (A := arith) =
  [of_int 0; lit 5 100; lit 1 10; of_int 3 *! lit 5 100; lit 2 10].
Proof. vm_compute. reflexivity. Qed.

(** X20: on binary64, whenever the sweep returns it has built five
    portfolios, for the TIPS allocations 0, 0.05, 0.1, 3 * 0.05 and 0.2 in
    that order (the fourth is the double above 0.15, not 0.15 itself), with
    raw weights [0.6, 0.4 - p, p]; these sum to 1.0 without rounding error,
    so the stored weights are the raw weights; and each of its five lists
    holds five entries, the i-th being the Sharpe ratio, CVaR, Sortino
    ratio, value series and final value of the i-th portfolio. *)
Theorem sweep_on_binary64_collects_five
    (yf_download : portfolio.Provider (A := arith)) (pad : bool)
    (fromisoformat : string -> option date)
    (start_date_str end_date_str : string)
    (c : sensitivity_analysis.Collected (A := arith)) :
  sensitivity_analysis.plot_sensitivity_analysis yf_download pad fromisoformat
    start_date_str end_date_str = Some c ->
  map (fun p => map (@portfolio.weight arith) (portfolio.assets p))
      (sensitivity_analysis.portfolios c) =
    map (fun p => [lit 6 10; lit 4 10 -! p; p])
        [of_int 0; lit 5 100; lit 1 10; of_int 3 *! lit 5 100; lit 2 10] /\
  of_int 3 *! lit 5 100 <> lit 15 100 /\
  map (@portfolio.weights arith) (sensitivity_analysis.portfolios c) =
    map (fun p => map (@portfolio.weight arith) (portfolio.assets p))
        (sensitivity_analysis.portfolios c) /\
  (length (sensitivity_analysis.portfolios c) = 5 /\
   length (sensitivity_analysis.sharpe_ratios c) = 5 /\
   length (sensitivity_analysis.cvars c) = 5 /\
   length (sensitivity_analysis.sortino_ratios c) = 5 /\
   length (sensitivity_analysis.portfolio_values c) = 5 /\
   length (sensitivity_analysis.net_returns c) = 5)%nat /\
  forall i p, nth_error (sensitivity_analysis.portfolios c) i = Some p ->
    collected_at (sensitivity_analysis.sharpe_ratios c)
      (sensitivity_analysis.cvars c) (sensitivity_analysis.sortino_ratios c)
      (sensitivity_analysis.portfolio_values c)
      (sensitivity_analysis.net_returns c) i p.
Proof.
  unfold sensitivity_analysis.plot_sensitivity_analysis.
  destruct (fromisoformat start_date_str) as [start_date|]; [|discriminate].
  destruct (fromisoformat end_date_str) as [end_date|]; [|discriminate].
  cbn [bind].
  set (ps := sensitivity_analysis.build_portfolios yf_download pad start_date end_date).
  set (returns := portfolio.calculate_market_returns pad
         (yf_download sensitivity_analysis.sweep_tickers start_date end_date "1mo"%string)).
  intros Hc.
  assert (Hps : length ps = 5%nat).
  { unfold ps, sensitivity_analysis.build_portfolios.
    rewrite length_map, binary64_grid_values. reflexivity. }
  assert (Hshape : pd.width returns = 3%nat /\ (1 <= pd.len returns)%nat).
  { destruct (Nat.eq_dec (pd.width returns) 3) as [Hw|Hw];
      [destruct (Nat.eq_dec (pd.len returns) 0) as [Hn|Hn]; [|split; [exact Hw|lia]]|];
      exfalso; revert Hc; unfold ps, sensitivity_analysis.build_portfolios;
      rewrite binary64_grid_values; cbn [map];
      rewrite collect_raises_first; try discriminate.
    - right. exact Hn.
    - left. exact Hw. }
  destruct Hshape as [Hw Hn].
  assert (Hok : Forall (fun p =>
      pd.width (portfolio.market_returns p) = length (portfolio.weights p) /\
      (1 <= pd.len (portfolio.market_returns p))%nat) ps).
  { unfold ps, sensitivity_analysis.build_portfolios.
    apply Forall_map, Forall_forall. intros g _. split; [exact Hw | exact Hn]. }
  edestruct (@collect_appends arith ps) as
    (shs & cvs & sos & vals & nets & Hc' & Hlen & Hat);
    [exact Hok | vm_compute; reflexivity | ].
  rewrite Hc' in Hc. injection Hc as <-.
  cbn [sensitivity_analysis.portfolios sensitivity_analysis.sharpe_ratios
       sensitivity_analysis.cvars sensitivity_analysis.sortino_ratios
       sensitivity_analysis.portfolio_values sensitivity_analysis.net_returns app].
  split; [|split; [|split; [|split]]].
  - unfold ps, sensitivity_analysis.build_portfolios.
    rewrite binary64_grid_values, map_map. reflexivity.
  - intros H. apply (f_equal Prim2SF) in H. vm_compute in H. discriminate H.
  - unfold ps, sensitivity_analysis.build_portfolios.
    rewrite binary64_grid_values, !map_map. cbn [map].
    repeat (f_equal; [vm_compute; reflexivity|]). reflexivity.
  - rewrite Hps in Hlen. intuition.
  - exact Hat.
Qed.

End SweepBinary64.

(** ** The sweep builds five portfolios and collects five entries *)

Section SweepCollects.
Import Binary64.

Lemma sweep_weights_sum_to_one :
  Forall (fun g =>
            pd.np_sum (map (fun w => w /! pd.np_sum (sensitivity_analysis.sweep_weights g))
                           (sensitivity_analysis.sweep_weights g)) = of_int 1)
         [of_int 0; lit 5 100; lit 1 10; of_int 3 *! lit 5 100; lit 2 10].
Proof. repeat constructor; vm_compute; reflexivity. Qed.

(** C9, as amended: on binary64, when both dates parse and the returns
    table for the three tickers has three columns and at least one row, the
    sweep returns; its grid is the five doubles 0, 0.05, 0.1, 3 * 0.05 and
    0.2 (the fourth is 0.15000000000000002, the double above 0.15); it has
    built five portfolios, one per grid value [p] in grid order, for the
    tickers SPY, AGG, TIP with the raw weights [0.6, 0.4 - p, p], whose
    stored weights sum to exactly 1.0; and each of its five lists holds five
    entries, the i-th being the Sharpe ratio, CVaR, Sortino ratio, value
    series and final value of the i-th portfolio. *)
Theorem sweep_builds_and_collects_five
    (yf_download : portfolio.Provider (A := arith)) (pad : bool)
    (fromisoformat : string -> option date)
    (start_date_str end_date_str : string) (start_date end_date : date) :
  let returns :=
    portfolio.calculate_market_returns pad
      (yf_download sensitivity_analysis.sweep_tickers start_date end_date "1mo"%string) in
  fromisoformat start_date_str = Some start_date ->
  fromisoformat end_date_str = Some end_date ->
  pd.width returns = 3%nat ->
  (1 <= pd.len returns)%nat ->
  exists c,
    sensitivity_analysis.plot_sensitivity_analysis yf_download pad fromisoformat
      start_date_str end_date_str = Some c /\
    sensitivity_analysis.sweep_grid (A := arith) =
      [of_int 0; lit 5 100; lit 1 10; of_int 3 *! lit 5 100; lit 2 10] /\
    map (fun p => map (@portfolio.ticker arith) (portfolio.assets p))
        (sensitivity_analysis.portfolios c) =
      repeat ["SPY"; "AGG"; "TIP"]%string 5 /\
    map (fun p => map (@portfolio.weight arith) (portfolio.assets p))
        (sensitivity_analysis.portfolios c) =
      map (fun p => [lit 6 10; lit 4 10 -! p; p]) sensitivity_analysis.sweep_grid /\
    Forall (fun p => pd.np_sum (portfolio.weights p) = of_int 1)
           (sensitivity_analysis.portfolios c) /\
    (length (sensitivity_analysis.portfolios c) = 5 /\
     length (sensitivity_analysis.sharpe_ratios c) = 5 /\
     length (sensitivity_analysis.cvars c) = 5 /\
     length (sensitivity_analysis.sortino_ratios c) = 5 /\
     length (sensitivity_analysis.portfolio_values c) = 5 /\
     length (sensitivity_analysis.net_returns c) = 5)%nat /\
    forall i p, nth_error (sensitivity_analysis.portfolios c) i = Some p ->
      collected_at (sensitivity_analysis.sharpe_ratios c)
        (sensitivity_analysis.cvars c) (sensitivity_analysis.sortino_ratios c)
        (sensitivity_analysis.portfolio_values c)
        (sensitivity_analysis.net_returns c) i p.
Proof.
  intros returns Hs He Hw Hn.
  unfold sensitivity_analysis.plot_sensitivity_analysis.
  rewrite Hs, He. cbn [bind].
  set (ps := sensitivity_analysis.build_portfolios yf_download pad start_date end_date).
  assert (Hps : length ps = 5%nat).
  { unfold ps, sensitivity_analysis.build_portfolios.
    now rewrite length_map, binary64_grid_values. }
  assert (Hok : Forall (fun p =>
      pd.width (portfolio.market_returns p) = length (portfolio.weights p) /\
      (1 <= pd.len (portfolio.market_returns p))%nat) ps).
  { unfold ps, sensitivity_analysis.build_portfolios.
    apply Forall_map, Forall_forall. intros g _. split; [exact Hw | exact Hn]. }
  edestruct (@collect_appends arith ps) as
    (shs & cvs & sos & vals & nets & Hc & Hlen & Hat);
    [exact Hok | vm_compute; reflexivity | ].
  eexists. split; [exact Hc|].
  cbn [sensitivity_analysis.portfolios sensitivity_analysis.sharpe_ratios
       sensitivity_analysis.cvars sensitivity_analysis.sortino_ratios
       sensitivity_analysis.portfolio_values sensitivity_analysis.net_returns app].
  split; [exact binary64_grid_values|]. split; [|split; [|split; [|split]]].
  - unfold ps, sensitivity_analysis.build_portfolios.
    rewrite binary64_grid_values, map_map. reflexivity.
  - unfold ps, sensitivity_analysis.build_portfolios. rewrite map_map.
    apply map_ext. reflexivity.
  - unfold ps, sensitivity_analysis.build_portfolios.
    rewrite binary64_grid_values. apply Forall_map.
    exact sweep_weights_sum_to_one.
  - rewrite Hps in Hlen. intuition.
  - exact Hat.
Qed.

End SweepCollects.

Lemma sweep_builds_and_collects_five_witness :
  exists c,
    sensitivity_analysis.plot_sensitivity_analysis EdgeSample.three_assets true
      Sample.fromisoformat "2021-01-01" "2023-12-31" = Some c /\
    Forall (fun p => pd.np_sum (portfolio.weights p) = of_int 1)
           (sensitivity_analysis.portfolios c) /\
    length (sensitivity_analysis.net_returns c) = 5%nat.
Proof.
  destruct (@sweep_builds_and_collects_five EdgeSample.three_assets true
              Sample.fromisoformat "2021-01-01" "2023-12-31"
              Sample.jan2021 Sample.dec2023 eq_refl eq_refl)
    as (c & Hc & _ & _ & _ & Hsum & Hlen & _).
  - vm_compute. reflexivity.
  - vm_compute. lia.
  - exists c. split; [exact Hc|]. split; [exact Hsum|]. apply Hlen.
Defined.

(** C9, refuted as stated, twice. On binary64 the grid of the sweep is not
    the five doubles 0, 0.05, 0.10, 0.15, 0.20: [np.arange] computes its
    fourth value as [0 + 3 * 0.05], which is 0.15000000000000002. And with a
    table of a single date for the three tickers there is no return, the
    last value of an empty value series is asked for, and the sweep raises
    instead of collecting five entries. *)
Lemma sweep_grid_is_not_the_decimal_grid :
  sensitivity_analysis.sweep_grid (A := Binary64.arith) <>
    [of_int 0; lit 5 100; lit 10 100; lit 15 100; lit 20 100] /\
  sensitivity_analysis.plot_sensitivity_analysis EdgeSample.three_assets_one_date true
    Sample.fromisoformat "2021-01-01" "2023-12-31" = None.
Proof.
  split.
  - intros H.
    apply (f_equal (fun g => Prim2SF (nth 3 g (np_nan (Arith := Binary64.arith))))) in H.
    vm_compute in H. discriminate H.
  - assert (H : option_map (fun _ => tt)
                (sensitivity_analysis.plot_sensitivity_analysis
                   EdgeSample.three_assets_one_date true Sample.fromisoformat
                   "2021-01-01" "2023-12-31") = None) by (vm_compute; reflexivity).
    destruct (sensitivity_analysis.plot_sensitivity_analysis
                EdgeSample.three_assets_one_date true Sample.fromisoformat
                "2021-01-01" "2023-12-31"); [discriminate H | reflexivity].
Qed.

(** ** The theorems at work on the synthetic tables *)

Section Binary64Examples.
Import Binary64.

Lemma market_returns_one_row_fewer_witness :
  Z.of_nat (pd.len (portfolio.market_returns Sample.p_two_assets)) =
  (Z.of_nat (pd.len (portfolio.market_data Sample.p_two_assets)) - 1)%Z.
Proof.
  apply (@market_returns_one_row_fewer arith binary64_laws Sample.two_assets true
           Sample.assets_a_b Sample.jan2021 Sample.dec2023 "1mo"%string).
  - vm_compute. repeat constructor.
  - vm_compute. repeat constructor.
  - repeat constructor.
Defined.
Lemma return_metrics_identities_witness :
  exists rets value cpnl pnl,
    portfolio.portfolio_return_metrics Sample.p_two_assets =
      Some (rets, value, cpnl, pnl) /\
    nth 0 value np_nan = of_int 1 +! nth 0 rets np_nan /\
    nth 0 pnl np_nan = of_int 0.
Proof.
  edestruct (@return_metrics_identities arith binary64_laws Sample.p_two_assets)
    with (d := @np_nan arith) as (_ & Hv0 & _ & _ & Hp0 & _).
  - vm_compute. reflexivity.
  - discriminate.
  - repeat constructor.
  - intros [|[|[|t]]] Ht; cbn [length] in Ht; try lia; vm_compute; reflexivity.
  - do 4 eexists. split; [reflexivity|]. split; [exact Hv0 | exact Hp0].
Defined.
Lemma volatility_metrics_raise_outside_unit_interval_witness :
  portfolio.portfolio_volatility_metrics Sample.p_two_assets (of_int 0) (of_int 2)
  = None.
Proof.
  apply (@volatility_metrics_raise_outside_unit_interval arith).
  vm_compute. reflexivity.
Defined.

Lemma asset_volatility_by_position_witness :
  exists contributions,
    portfolio.asset_volatility_decomposition Sample.p_spy_agg = Some contributions /\
    length contributions = 2%nat.
Proof.
  destruct (@asset_volatility_by_position arith Sample.p_spy_agg eq_refl)
    as (contributions & Hc & Hl & _).
  exists contributions. split; [exact Hc | exact Hl].
Defined.

(** The repository's own allocations, on binary64: the five weight vectors
    of the sweep sum to [1.0] before and after normalization. *)
Example sweep_weights_on_binary64 :
  map (fun p => let w := sensitivity_analysis.sweep_weights p in
                (pd.np_sum w, pd.np_sum (map (fun x => x /! pd.np_sum w) w)))
      sensitivity_analysis.sweep_grid
  = repeat (of_int 1, of_int 1) 5.
Proof. vm_compute. reflexivity. Qed.

Example two_asset_weights_on_binary64 :
  pd.np_sum (portfolio.weights Sample.p_two_assets) = of_int 1.
Proof. vm_compute. reflexivity. Qed.

(** The three-asset allocation of the repository: its raw weights sum to
    the double below [1.0], and its stored weights to the double above. *)
Example three_asset_weights_on_binary64 :
  pd.np_sum (map (@portfolio.weight arith) EdgeSample.assets_6_3_1)
    = PrimFloat.next_down (of_int 1) /\
  pd.np_sum (portfolio.weights EdgeSample.p_three_assets)
    = PrimFloat.next_up (of_int 1).
Proof. split; vm_compute; reflexivity. Qed.

End Binary64Examples.

(** ** The edge cases at work *)

Section EdgeExamples.
Import Binary64.

Lemma market_returns_lose_the_first_row_witness :
  pd.rows (portfolio.market_returns EdgeSample.p_one_date) = [].
Proof.
  refine (proj2 (@market_returns_lose_the_first_row arith binary64_laws
                   EdgeSample.one_date true Sample.assets_a_b Sample.jan2021
                   Sample.dec2023 "1mo"%string _ _ _) eq_refl).
  - vm_compute. repeat constructor.
  - vm_compute. repeat constructor.
  - repeat constructor.
Defined.

Lemma market_returns_are_period_changes_witness :
  nth 1 (nth 0 (pd.rows (portfolio.market_returns Sample.p_two_assets)) []) np_nan =
  nth 1 (nth 1 (pd.rows (portfolio.market_data Sample.p_two_assets)) []) np_nan /!
  nth 1 (nth 0 (pd.rows (portfolio.market_data Sample.p_two_assets)) []) np_nan
    -! of_int 1.
Proof.
  apply (@market_returns_are_period_changes arith binary64_laws Sample.two_assets
           true Sample.assets_a_b Sample.jan2021 Sample.dec2023 "1mo"%string
           (@np_nan arith)).
  - repeat constructor.
  - vm_compute. repeat constructor.
  - vm_compute. repeat constructor.
Defined.

Lemma short_history_gives_nan_witness :
  (exists cvar,
     portfolio.portfolio_volatility_metrics EdgeSample.p_two_dates (of_int 0) (lit 5 100)
     = Some (np_nan, np_nan, np_nan, cvar, np_nan)) /\
  portfolio.portfolio_volatility_metrics EdgeSample.p_one_date (of_int 0) (lit 5 100)
  = Some (np_nan, np_nan, np_nan, np_nan, np_nan).
Proof.
  split.
  - destruct (@short_history_gives_nan arith binary64_laws binary64_special
                EdgeSample.p_two_dates (of_int 0) (lit 5 100))
      as [(cvar & Hv & _) _].
    + reflexivity.
    + vm_compute. repeat constructor.
    + vm_compute. reflexivity.
    + exists cvar. exact Hv.
  - destruct (@short_history_gives_nan arith binary64_laws binary64_special
                EdgeSample.p_one_date (of_int 0) (lit 5 100))
      as [(cvar & Hv & Hc) _].
    + reflexivity.
    + vm_compute. repeat constructor.
    + vm_compute. reflexivity.
    + rewrite Hv, (Hc eq_refl). reflexivity.
Defined.

Lemma zero_sum_weights_are_not_numbers_witness :
  Forall (fun w => np_isfinite w = false) (portfolio.weights EdgeSample.p_long_short) /\
  exists rets value cpnl pnl,
    portfolio.portfolio_return_metrics EdgeSample.p_long_short =
      Some (rets, value, cpnl, pnl) /\
    length rets = 3%nat /\
    Forall (fun r => np_isfinite r = false) rets.
Proof.
  destruct (@zero_sum_weights_are_not_numbers arith binary64_special
              Sample.two_assets true EdgeSample.long_short Sample.jan2021
              Sample.dec2023 "1mo"%string) as [Hw Hr].
  - vm_compute. reflexivity.
  - split; [exact Hw|].
    destruct Hr as (rets & value & cpnl & pnl & Hm & Hl & Hf).
    + discriminate.
    + reflexivity.
    + vm_compute. repeat constructor.
    + exists rets, value, cpnl, pnl. split; [exact Hm|]. split; [exact Hl|exact Hf].
Defined.

Lemma metrics_raise_exactly_on_shape_or_level_witness :
  exists rets value cpnl pnl,
    portfolio.portfolio_return_metrics Sample.p_two_assets =
      Some (rets, value, cpnl, pnl) /\
    length rets = 3%nat /\ length pnl = 3%nat.
Proof.
  destruct (@metrics_raise_exactly_on_shape_or_level arith Sample.p_two_assets
              (of_int 0) (lit 5 100)) as (_ & _ & Hlen).
  do 4 eexists. split; [vm_compute; reflexivity|].
  edestruct Hlen as (Hr & _ & _ & Hp); [vm_compute; reflexivity|].
  split; [exact Hr|]. rewrite Hp. exact Hr.
Defined.

Lemma sweep_on_binary64_collects_five_witness :
  option_map (fun c => length (sensitivity_analysis.net_returns c))
    (sensitivity_analysis.plot_sensitivity_analysis EdgeSample.three_assets true
       Sample.fromisoformat "2021-01-01" "2023-12-31") = Some 5%nat.
Proof.
  pose proof (@sweep_on_binary64_collects_five EdgeSample.three_assets true
                Sample.fromisoformat "2021-01-01" "2023-12-31") as Hfive.
  assert (Hsome : option_map (fun _ => tt)
            (sensitivity_analysis.plot_sensitivity_analysis EdgeSample.three_assets
               true Sample.fromisoformat "2021-01-01" "2023-12-31") = Some tt)
    by (vm_compute; reflexivity).
  destruct (sensitivity_analysis.plot_sensitivity_analysis EdgeSample.three_assets
              true Sample.fromisoformat "2021-01-01" "2023-12-31") as [c|];
    [|discriminate Hsome].
  destruct (Hfive c eq_refl) as (_ & _ & _ & (_ & _ & _ & _ & _ & Hn) & _).
  cbn [option_map]. f_equal. exact Hn.
Defined.

Lemma sweep_raises_exactly_when_witness :
  sensitivity_analysis.plot_sensitivity_analysis EdgeSample.three_assets_one_date true
    Sample.fromisoformat "2021-01-01" "2023-12-31" = None.
Proof.
  apply (proj2 (@sweep_raises_exactly_when EdgeSample.three_assets_one_date true
                  Sample.fromisoformat "2021-01-01" "2023-12-31")).
  right. vm_compute. reflexivity.
Defined.

End EdgeExamples.
